(** * deep-research: the research pipeline of [main.ts]

    A shallow embedding of the pipeline in [src/main.ts]: the page fetcher
    ([fetchWebContent]), the URL selector ([getRelevantUrls]), the
    hierarchical summarizer ([summarizeContent]), the two task runners
    ([processWebResearch], [processAiResearch]) and the orchestrator
    ([deepResearch]).

    Modelling decisions.
    - A JavaScript string is the list of its UTF-16 code units.
    - The external services ([fetch], [generateText], [generateObject],
      [JSON.stringify]) are fields of a [Services] record over an abstract
      world [W]; every request is answered by the world in its current
      state, so the same request may be answered differently at different
      times.  Each call is recorded, with its answer, in a trace.
    - An [async] function is a computation in a state-and-exception monad;
      a rejected promise is [Throw].
    - [Promise.all (xs.map f)] is [mapM]: the results are collected in
      index order, as in the program.  The model runs the branches one
      after the other and stops at the first one that throws, whereas
      the program starts every branch before it awaits any.  The two
      agree on a fan-out whose branches make one call each, at their
      start, as long as no branch throws (the page fetches, the map pass
      of the summarizer).  They differ in how the calls of longer
      branches interleave, hence in what a stateful service answers to
      each, and, when a branch throws, in the calls already made and in
      which exception wins.  The properties below are stated so as not
      to depend on the difference: they speak of the result of a branch
      as that of some run of it, of the calls of a fan-out without their
      mutual order, and of the presence of a failed call, not of its
      rank.
    - JSON bodies are taken at the interfaces the source declares
      ([WebContent], [SearchResult]), with the properties the code tests
      for ([content], [results]) possibly absent.  A body of another
      shape is outside the model: on the body [null] the code raises a
      [TypeError] of its own when it reads [data.content] or
      [searchData.results], and on a [content] that is not a string or
      [results] that is not an array when it calls [match] or [map] on
      it.  What is said below of runs in which no external call throws
      holds for bodies of the declared shapes.
    - The writes to [spinner.text], [spinner.succeed] and [console.log]
      only drive the progress display and carry no data into any result;
      they are left out. *)

From Stdlib Require Import String Ascii DecimalString.
From Stdlib Require Import List Arith ZArith NArith Lia Bool.
From Equations Require Import Equations.
Import ListNotations.

Set Implicit Arguments.

(** ** Strings *)

Definition char16 := N.
Definition jsstring := list char16.

(** A source literal (ASCII only) as a JavaScript string. *)
Definition lit (s : string) : jsstring :=
  map N_of_ascii (list_ascii_of_string s).

Definition dquote : jsstring := [34%N].
Definition nl : jsstring := [10%N].

(** [`${n}`] for a non-negative integer [n]. *)
Definition numToString (n : nat) : jsstring :=
  lit (NilEmpty.string_of_uint (Nat.to_uint n)).

(** [xs.join(sep)] on an array of strings. *)
Fixpoint join (sep : jsstring) (xs : list jsstring) : jsstring :=
  match xs with
  | [] => []
  | [x] => x
  | x :: rest => x ++ sep ++ join sep rest
  end.

(** [xs.map((e, i) => f(e, i))], counting from [i]. *)
Fixpoint mapi_from {A B} (i : nat) (f : A -> nat -> B) (xs : list A) : list B :=
  match xs with
  | [] => []
  | x :: rest => f x i :: mapi_from (S i) f rest
  end.

Definition mapi {A B} (f : A -> nat -> B) (xs : list A) : list B :=
  mapi_from 0 f xs.

(** ** The regular expression [.{1,n}] with the [g] flag

    Without the [s] flag, [.] matches any code unit except the four line
    terminators. *)

Definition isLineTerminator (c : char16) : bool :=
  (c =? 10)%N || (c =? 13)%N || (c =? 8232)%N || (c =? 8233)%N.

(** The greedy match of [.{0,n}] at the start of [s]: the matched prefix
    and the rest of the input. *)
Fixpoint dotRun (n : nat) (s : jsstring) : jsstring * jsstring :=
  match n, s with
  | S n', c :: s' =>
      if isLineTerminator c then ([], s)
      else let (m, r) := dotRun n' s' in (c :: m, r)
  | _, _ => ([], s)
  end.

Definition inspect {A} (a : A) : {b : A | a = b} := exist _ a eq_refl.

(** All the matches of [.{1,n}] in [s], left to right: where the pattern
    does not match (a line terminator), the search moves on by one code
    unit; after a match it resumes at the end of the match. *)
Equations? matchAll (n : nat) (s : jsstring) : list jsstring
  by wf (length s) lt :=
  matchAll n [] := [];
  matchAll n (c :: s') with inspect (dotRun n (c :: s')) => {
    | exist _ ([], _) _ := matchAll n s';
    | exist _ (m, r) Heq := m :: matchAll n r }.
Proof.
  assert (Hsplit : forall k s, fst (dotRun k s) ++ snd (dotRun k s) = s).
  { induction k as [|k IH]; intros [|a s]; simpl; try reflexivity.
    destruct (isLineTerminator a); [reflexivity|].
    specialize (IH s). destruct (dotRun k s); simpl in *. now rewrite IH. }
  specialize (Hsplit n (c :: s')). rewrite Heq in Hsplit; simpl in Hsplit.
  apply (f_equal (@length char16)) in Hsplit.
  simpl in Hsplit. rewrite length_app in Hsplit. lia.
Qed.

(** [s.match(re)] with a global [re]: [null] when nothing matches. *)
Definition String_match (n : nat) (s : jsstring) : option (list jsstring) :=
  match matchAll n s with
  | [] => None
  | ms => Some ms
  end.

(** [x || []] on the result of [match]. *)
Definition orEmpty {A} (x : option (list A)) : list A :=
  match x with
  | Some l => l
  | None => []
  end.

(** ** Data model (the interfaces of [main.ts]) *)

Inductive ResearchType := web | ai.

Record ResearchPlan := {
  rp_title : jsstring;
  rp_objectives : jsstring;
  rp_expectedOutcomes : jsstring;
  rp_type : ResearchType;
  rp_query : jsstring
}.

Record WebContent := {
  wc_title : jsstring;
  wc_content : jsstring;
  wc_url : jsstring
}.

Record SearchResult := {
  sr_title : jsstring;
  sr_url : jsstring;
  sr_content : jsstring
}.

Record Reference := {
  ref_url : jsstring;
  ref_title : jsstring
}.

Record ResearchSummary := {
  answer : jsstring;
  references : list Reference
}.

(** The object that [researchPlanSchema] validates. *)
Record Plan := {
  plan_title : jsstring;
  plan_language : jsstring;
  plan_objectives : jsstring;
  plan_expectedOutcomes : jsstring;
  plan_researchPlan : list ResearchPlan
}.

Inductive Model := fastModel | flagshipModel.

(** ** External services *)

Definition Exn := jsstring.

Inductive Outcome (A : Type) :=
| Ok (a : A)
| Throw (e : Exn).
Arguments Throw {A} e.

(** What [res.json()] resolves to, for bodies of the declared shapes.
    [data.content] and [searchData.results] are [None] when the property
    is absent (reading a property an object does not have gives
    [undefined]). *)
Inductive Json :=
| JPage (title : jsstring) (content : option jsstring) (url : jsstring)
| JSearch (results : option (list SearchResult)).

Record Response := {
  status : Z;
  json : Outcome Json
}.

(** One external call with its answer. *)
Inductive Event :=
| EvFetch (url : jsstring) (res : Outcome Response)
| EvGenerateText (model : Model) (system : option jsstring)
    (prompt : jsstring) (res : Outcome jsstring)
| EvGenerateUrls (model : Model) (prompt : jsstring)
    (res : Outcome (list jsstring))
| EvGeneratePlan (model : Model) (system prompt : jsstring)
    (res : Outcome Plan).

Record Services (W : Type) := {
  (** [fetch(url)] *)
  fetch : jsstring -> W -> Outcome Response * W;
  (** [generateText({ model, system?, prompt })], giving [text] *)
  generateText :
    Model -> option jsstring -> jsstring -> W -> Outcome jsstring * W;
  (** [generateObject] with the [{ urls: [{ url }] }] schema, giving the
      [url] of each entry of [object.urls] *)
  generateUrls : Model -> jsstring -> W -> Outcome (list jsstring) * W;
  (** [generateObject({ model, system, prompt })] with
      [researchPlanSchema], giving [object] *)
  generatePlan : Model -> jsstring -> jsstring -> W -> Outcome Plan * W;
  (** [JSON.stringify] on an array of search results *)
  JSON_stringify : list SearchResult -> jsstring
}.

(** ** The monad of [async] functions *)

Record State (W : Type) := {
  world : W;
  trace : list Event
}.

Definition M (W A : Type) := State W -> Outcome A * State W.

Definition ret {W A} (a : A) : M W A := fun st => (Ok a, st).

Definition bind {W A B} (m : M W A) (k : A -> M W B) : M W B :=
  fun st =>
    match m st with
    | (Ok a, st') => k a st'
    | (Throw e, st') => (Throw e, st')
    end.

Declare Scope async_scope.
Delimit Scope async_scope with async.
Notation "'await' x <- m ;; k" := (bind m (fun x => k))
  (at level 61, x name, m at next level, right associativity) : async_scope.
Open Scope async_scope.

(** [await] on an outcome that is already known ([res.json()]). *)
Definition liftOutcome {W A} (o : Outcome A) : M W A := fun st => (o, st).

(** An external call: the world answers and the trace grows by one. *)
Definition call {W A} (op : W -> Outcome A * W) (ev : Outcome A -> Event)
  : M W A :=
  fun st =>
    let (r, w') := op (world st) in
    (r, {| world := w'; trace := trace st ++ [ev r] |}).

(** [Promise.all(xs.map(f))], with the branches run one after the other
    and the first exception ending the fan-out (see the modelling
    decisions above). *)
Fixpoint mapM {W A B} (f : A -> M W B) (xs : list A) : M W (list B) :=
  match xs with
  | [] => ret []
  | x :: rest =>
      await y <- f x ;;
      await ys <- mapM f rest ;;
      ret (y :: ys)
  end.

(** [Promise.all(xs.map((x, i) => f(x, i)))], counting from [i], run
    like [mapM]. *)
Fixpoint mapiM_from {W A B} (i : nat) (f : A -> nat -> M W B) (xs : list A)
  : M W (list B) :=
  match xs with
  | [] => ret []
  | x :: rest =>
      await y <- f x i ;;
      await ys <- mapiM_from (S i) f rest ;;
      ret (y :: ys)
  end.

Definition mapiM {W A B} (f : A -> nat -> M W B) (xs : list A)
  : M W (list B) :=
  mapiM_from 0 f xs.

(** [xs.join(sep)] on an array whose elements may be [undefined]
    ([None]): [join] writes [undefined] as the empty string. *)
Definition joinU (sep : jsstring) (xs : list (option jsstring)) : jsstring :=
  join sep (map (fun x => match x with Some s => s | None => [] end) xs).

(** [ToBoolean] of a property holding an object (an array is one), or
    [undefined] when it is absent: every object is truthy. *)
Definition toBoolean {A} (x : option A) : bool :=
  match x with
  | Some _ => true
  | None => false
  end.

(** ** The pipeline *)

Definition chunkSize : nat := Z.to_nat 10000.
Definition MAX_PAGES : nat := 5.

Section Pipeline.

Context {W : Type} (sv : Services W).

(** The module-level [systemPrompt] constant. *)
Variable systemPrompt : jsstring.

Definition parserUrl (url : jsstring) : jsstring :=
  lit "https://urlparser.maia.id/?url=" ++ url.

Definition fetchWebContent (url : jsstring) : M W (option WebContent) :=
  await res <- call (fetch sv (parserUrl url)) (EvFetch (parserUrl url)) ;;
  if negb (status res =? 200)%Z then ret None
  else
    await data <- liftOutcome (json res) ;;
    match data with
    | JPage title (Some content) url' =>
        (* !data.content || data.content.length < 100 *)
        if (length content =? 0) || (length content <? 100) then ret None
        else ret (Some {| wc_title := title;
                          wc_content := content;
                          wc_url := url' |})
    | JPage _ None _ => ret None
    | JSearch _ => ret None
    end.

Definition urlsPrompt (results : list SearchResult) (research : ResearchPlan)
  : jsstring :=
  lit "From the following search results, find the most relevant URL that can make sure this objective is achieved: "
    ++ dquote ++ rp_objectives research ++ dquote ++ lit "." ++ nl
    ++ lit "Here is the search results:" ++ nl
    ++ JSON_stringify sv results.

Definition getRelevantUrls (results : list SearchResult)
    (research : ResearchPlan) : M W (list jsstring) :=
  call (generateUrls sv flagshipModel (urlsPrompt results research))
       (EvGenerateUrls flagshipModel (urlsPrompt results research)).

Definition chunkPrompt (title : jsstring) (research : ResearchPlan)
    (total : nat) (chunk : jsstring) (index : nat) : jsstring :=
  lit "Summarize the following content from " ++ dquote ++ title ++ dquote
    ++ lit " (part " ++ numToString (index + 1) ++ lit "/"
    ++ numToString total
    ++ lit "). Focus on key points related to: " ++ rp_objectives research
    ++ nl ++ nl ++ lit "Content:" ++ nl ++ chunk.

Definition combinePrompt (title : jsstring) (research : ResearchPlan)
    (chunkSummaries : list jsstring) : jsstring :=
  lit "Combine these summaries from " ++ dquote ++ title ++ dquote
    ++ lit " into a coherent summary. Focus on key points related to: "
    ++ rp_objectives research
    ++ nl ++ nl ++ lit "Summaries:" ++ nl
    ++ join (nl ++ nl) chunkSummaries.

(** [generateText({ model, prompt })]: no [system] property. *)
Definition genText (model : Model) (prompt : jsstring) : M W jsstring :=
  call (generateText sv model None prompt)
       (EvGenerateText model None prompt).

(** The result is [None] for [undefined] ([chunkSummaries[0]] of an empty
    array). *)
Definition summarizeContent (content title url : jsstring)
    (research : ResearchPlan) : M W (option jsstring) :=
  let chunks := orEmpty (String_match chunkSize content) in
  await chunkSummaries <-
    mapiM (fun chunk index =>
             genText fastModel
               (chunkPrompt title research (length chunks) chunk index))
          chunks ;;
  if 1 <? length chunkSummaries then
    await finalSummary <-
      genText fastModel (combinePrompt title research chunkSummaries) ;;
    ret (Some finalSummary)
  else ret (nth_error chunkSummaries 0).

Definition searchUrl (query : jsstring) (page : nat) : jsstring :=
  lit "https://search.maia.id/search?q=" ++ query
    ++ lit "&format=json&safesearch=0&pageno=" ++ numToString page.

(** [searchData.results] *)
Definition prop_results (searchData : Json) : option (list SearchResult) :=
  match searchData with
  | JSearch results => results
  | JPage _ _ _ => None
  end.

(** The [for (let page = 1; page <= MAX_PAGES; page++)] loop, with
    [remaining = MAX_PAGES + 1 - page] iterations still allowed. *)
Fixpoint searchLoop (query : jsstring) (remaining page : nat)
    (allResults : list SearchResult) : M W (list SearchResult) :=
  match remaining with
  | 0 => ret allResults
  | S remaining' =>
      await searchRes <-
        call (fetch sv (searchUrl query page))
             (EvFetch (searchUrl query page)) ;;
      await searchData <- liftOutcome (json searchRes) ;;
      match prop_results searchData with
      | None => ret allResults
      | Some [] => ret allResults
      | Some results =>
          let pageResults :=
            map (fun result => {| sr_title := sr_title result;
                                  sr_url := sr_url result;
                                  sr_content := sr_content result |})
                results in
          searchLoop query remaining' (S page) (allResults ++ pageResults)
      end
  end.

(** [contents.filter((content) => content !== null)] *)
Fixpoint filterNonNull {A} (xs : list (option A)) : list A :=
  match xs with
  | [] => []
  | Some x :: rest => x :: filterNonNull rest
  | None :: rest => filterNonNull rest
  end.

Definition answerPrompt (research : ResearchPlan)
    (contentSummaries : list (option jsstring)) : jsstring :=
  lit "You're conducting a research on " ++ rp_title research
    ++ lit ". Your objective is " ++ rp_objectives research
    ++ lit ". Here is the expected outcomes: "
    ++ rp_expectedOutcomes research
    ++ lit ". Based on the following summaries from different sources, provide a comprehensive answer:"
    ++ nl ++ nl ++ joinU (nl ++ nl) contentSummaries.

Definition toReference (content : WebContent) : Reference :=
  {| ref_url := wc_url content; ref_title := wc_title content |}.

Definition processWebResearch (research : ResearchPlan)
  : M W ResearchSummary :=
  await allResults <- searchLoop (rp_query research) MAX_PAGES 1 [] ;;
  await relevantUrls <- getRelevantUrls allResults research ;;
  await contents <- mapM fetchWebContent relevantUrls ;;
  let validContents := filterNonNull contents in
  await contentSummaries <-
    mapM (fun content =>
            summarizeContent (wc_content content) (wc_title content)
              (wc_url content) research)
         validContents ;;
  await answer <-
    genText fastModel (answerPrompt research contentSummaries) ;;
  ret {| answer := answer;
         references := map toReference validContents |}.

Definition processAiResearch (research : ResearchPlan)
  : M W ResearchSummary :=
  await answer <- genText fastModel (rp_query research) ;;
  ret {| answer := answer; references := [] |}.

(** The callback of the fan-out in [deepResearch]. *)
Definition dispatch (research : ResearchPlan) : M W ResearchSummary :=
  match rp_type research with
  | web => processWebResearch research
  | ai => processAiResearch research
  end.

Definition planLine (e : ResearchPlan) (i : nat) : jsstring :=
  numToString (i + 1) ++ lit ". " ++ rp_title e ++ lit ": " ++ rp_query e.

Definition refLine (ref : Reference) : jsstring :=
  lit "- (" ++ ref_url ref ++ lit ")[" ++ ref_title ref ++ lit "]".

Definition resultBlock (e : ResearchSummary) (i : nat) : jsstring :=
  numToString (i + 1) ++ lit ". " ++ answer e
    ++ (if toBoolean (Some (references e))
        then nl ++ lit "References:"
               ++ join nl (map refLine (references e))
        else []).

Definition requirements : jsstring :=
  lit "Requirements:" ++ nl
    ++ lit "- Write in clear, professional article format using markdown" ++ nl
    ++ lit "- Each paragraph/claim must include reference URLs in brackets at the end" ++ nl
    ++ lit "- ALWAYS USE MULTIPLE REFERENCES WHERE POSSIBLE, SEPARATED BY SEMICOLONS (e.g., [full_url1; full_url2; full_url3])" ++ nl
    ++ lit "- The references should be the full URL, not just the domain name." ++ nl
    ++ lit "- Exclude any objectives, research plans or expected outcomes sections" ++ nl
    ++ lit "- Focus purely on presenting the research findings in a cohesive narrative" ++ nl
    ++ lit "- The language of the report is ".

Definition reportPrompt (plan : Plan) (summaries : list ResearchSummary)
  : jsstring :=
  lit "You're conducting a research, the title is " ++ plan_title plan
    ++ lit "." ++ nl
    ++ lit "Your objective is: " ++ plan_objectives plan ++ lit "." ++ nl
    ++ lit "Here is the expected outcomes: " ++ plan_expectedOutcomes plan
    ++ lit "." ++ nl ++ nl
    ++ lit "Here is the current research plan:" ++ nl
    ++ join nl (mapi planLine (plan_researchPlan plan)) ++ nl ++ nl
    ++ lit "Here is the result based on the research plan above:" ++ nl
    ++ join nl (mapi resultBlock summaries) ++ nl ++ nl
    ++ requirements ++ plan_language plan.

(** The fan-out of [deepResearch]:
    [Promise.all(plan.researchPlan.map(...))]. *)
Definition runTasks (plan : Plan) : M W (list ResearchSummary) :=
  mapM dispatch (plan_researchPlan plan).

Definition deepResearch (prompt : jsstring) : M W jsstring :=
  await plan <-
    call (generatePlan sv flagshipModel systemPrompt prompt)
         (EvGeneratePlan flagshipModel systemPrompt prompt) ;;
  await summaries <- runTasks plan ;;
  await report <- genText flagshipModel (reportPrompt plan summaries) ;;
  ret report.

End Pipeline.

(** ** Runs, traces and fan-outs *)

Section RunNotions.

Context {W : Type}.

(** The events a run from [st] to [st'] added to the trace. *)
Definition newEvents (st st' : State W) : list Event :=
  skipn (length (trace st)) (trace st').

Definition Extends (st st' : State W) (evs : list Event) : Prop :=
  trace st' = trace st ++ evs.

(** A fan-out that resolved: one successful run of [f] per element, in
    index order, each starting where the previous one ended. *)
Inductive RunAll {A B} (f : A -> M W B)
  : State W -> list A -> list B -> State W -> Prop :=
| RunAll_nil st : RunAll f st [] [] st
| RunAll_cons st x y st1 xs ys st2 :
    f x st = (Ok y, st1) ->
    RunAll f st1 xs ys st2 ->
    RunAll f st (x :: xs) (y :: ys) st2.

End RunNotions.

(** ** Notions the claims are stated with *)

Definition noLineTerminator (s : jsstring) : bool :=
  forallb (fun c => negb (isLineTerminator c)) s.

Definition onlyLineTerminators (s : jsstring) : bool :=
  forallb isLineTerminator s.

(** The chunking the specification describes: slices of exactly [n] code
    units, the last one possibly shorter (and never empty). *)
Inductive FixedChunks (n : nat) : jsstring -> list jsstring -> Prop :=
| FC_none : FixedChunks n [] []
| FC_last s : 1 <= length s <= n -> FixedChunks n s [s]
| FC_full c s cs :
    length c = n -> cs <> [] -> FixedChunks n s cs ->
    FixedChunks n (c ++ s) (c :: cs).

Definition isGenerateText (ev : Event) : bool :=
  match ev with
  | EvGenerateText _ _ _ _ => true
  | _ => false
  end.

(** The requests of the map pass, one per chunk, with their answers. *)
Definition chunkEvents (title : jsstring) (research : ResearchPlan)
    (total : nat) (i : nat) (chunks texts : list jsstring) : list Event :=
  mapi_from i
    (fun (ct : jsstring * jsstring) index =>
       EvGenerateText fastModel None
         (chunkPrompt title research total (fst ct) index) (Ok (snd ct)))
    (combine chunks texts).

Fixpoint startsWith (p s : jsstring) : bool :=
  match p, s with
  | [], _ => true
  | a :: p', b :: s' => (a =? b)%N && startsWith p' s'
  | _ :: _, [] => false
  end.

Definition parserPrefix : jsstring := lit "https://urlparser.maia.id/?url=".

Definition isParserUrl (u : jsstring) : bool := startsWith parserPrefix u.

(** A fetched page is valid, in the words of the specification, when the
    fetch status is success (200) and the content is present and at least
    100 units long. *)
Definition validPage (res : Response) : option WebContent :=
  if (status res =? 200)%Z then
    match json res with
    | Ok (JPage title (Some content) url) =>
        if 100 <=? length content
        then Some {| wc_title := title;
                     wc_content := content;
                     wc_url := url |}
        else None
    | _ => None
    end
  else None.

(** The hits a search response carries (none when [results] is absent). *)
Definition hitsOf (res : Response) : list SearchResult :=
  match json res with
  | Ok (JSearch (Some hits)) => hits
  | _ => []
  end.

(** The responses to the page fetches recorded in a trace. *)
Definition pageResponses (evs : list Event) : list Response :=
  flat_map (fun ev =>
              match ev with
              | EvFetch u (Ok res) => if isParserUrl u then [res] else []
              | _ => []
              end) evs.

Definition searchEvents (query : jsstring) (page : nat)
    (resps : list Response) : list Event :=
  mapi_from page (fun res p => EvFetch (searchUrl query p) (Ok res)) resps.

Definition pageEvents (urls : list jsstring) (resps : list Response)
  : list Event :=
  map (fun ur => EvFetch (parserUrl (fst ur)) (Ok (snd ur)))
      (combine urls resps).

(** The summarizing step of the web runner, for one valid page. *)
Definition summarizePage {W} (sv : Services W) (research : ResearchPlan)
    (content : WebContent) : M W (option jsstring) :=
  summarizeContent sv (wc_content content) (wc_title content)
    (wc_url content) research.

(** ** Test doubles *)

(** The page number a search URL ends with (one digit: the loop stops at
    [MAX_PAGES]). *)
Definition pageOfUrl (u : jsstring) : nat :=
  match rev u with
  | d :: _ => N.to_nat (d - 48)
  | [] => 0
  end.

(** A fake world whose state counts the search requests made so far:
    [pages u] answers the fetch of page [u], [search k] answers a search
    request for page [k], the text service answers every prompt with
    [text], the URL selector answers [urls] and the planner [plan]. *)
Definition fakeServices (pages : jsstring -> Outcome Response)
    (search : nat -> Outcome Response) (text : Outcome jsstring)
    (urls : Outcome (list jsstring)) (plan : Outcome Plan) : Services nat :=
  {| fetch := fun u n =>
       if isParserUrl u then (pages (skipn (length parserPrefix) u), n)
       else (search (pageOfUrl u), S n);
     generateText := fun _ _ _ n => (text, n);
     generateUrls := fun _ _ n => (urls, n);
     generatePlan := fun _ _ _ n => (plan, n);
     JSON_stringify := fun _ => lit "[]" |}.

Definition initState : State nat := {| world := 0; trace := [] |}.

Definition sampleTask (type : ResearchType) : ResearchPlan :=
  {| rp_title := lit "Printing press";
     rp_objectives := lit "Trace its history";
     rp_expectedOutcomes := lit "A timeline";
     rp_type := type;
     rp_query := lit "history of the printing press" |}.

Definition okPage (title content url : jsstring) : Outcome Response :=
  Ok {| status := 200; json := Ok (JPage title (Some content) url) |}.

Definition searchPage (hits : list SearchResult) : Outcome Response :=
  Ok {| status := 200; json := Ok (JSearch (Some hits)) |}.

Definition echoServices : Services nat :=
  fakeServices (fun _ => Throw (lit "unreachable"))
    (fun _ => searchPage []) (Ok (lit "summary")) (Ok []) (Throw []).

Definition longText : jsstring := repeat 120%N 100.

Definition hit (url : jsstring) : SearchResult :=
  {| sr_title := lit "Gutenberg"; sr_url := url; sr_content := lit "snippet" |}.

Definition urlA : jsstring := lit "https://a.example/press".
Definition urlB : jsstring := lit "https://b.example/moved".
Definition urlDown : jsstring := lit "https://down.example/".

Definition onePageOfHits (k : nat) : Outcome Response :=
  if k <=? 1 then searchPage [hit urlDown; hit urlA] else searchPage [].

(** Results on pages 1 to 3, none from page 4 on. *)
Definition threePagesOfHits (k : nat) : Outcome Response :=
  if k <=? 3 then searchPage [hit urlA] else searchPage [].

Definition echoPage (u : jsstring) : Outcome Response :=
  okPage (lit "Title") longText u.

(** The page at [urlDown] answers 503 with a body that is not JSON; every
    other page is served. *)
Definition oneDownPage (u : jsstring) : Outcome Response :=
  if startsWith urlDown u
  then Ok {| status := 503; json := Throw (lit "Unexpected token <") |}
  else echoPage u.

Definition samplePlan : Plan :=
  {| plan_title := lit "Printing press";
     plan_language := lit "English";
     plan_objectives := lit "Trace its history";
     plan_expectedOutcomes := lit "A timeline";
     plan_researchPlan := [sampleTask web; sampleTask ai] |}.

(** Search finds two pages, the selector picks both, one of them is
    down. *)
Definition oneDownServices : Services nat :=
  fakeServices oneDownPage onePageOfHits (Ok (lit "summary"))
    (Ok [urlDown; urlA]) (Ok samplePlan).

(** [fetch] itself throws on every page. *)
Definition fetchThrowsServices : Services nat :=
  fakeServices (fun _ => Throw (lit "connection reset")) onePageOfHits
    (Ok (lit "summary")) (Ok [urlA]) (Ok samplePlan).

(** Every page answers 200 with a body that is not JSON. *)
Definition badJsonServices : Services nat :=
  fakeServices
    (fun _ => Ok {| status := 200; json := Throw (lit "Unexpected token <") |})
    onePageOfHits (Ok (lit "summary")) (Ok [urlA]) (Ok samplePlan).




Definition threePagesServices : Services nat :=
  fakeServices echoPage threePagesOfHits (Ok (lit "summary"))
    (Ok []) (Ok samplePlan).

(** Search finds nothing and the selector selects nothing. *)
Definition noHitsServices : Services nat :=
  fakeServices echoPage (fun _ => searchPage []) (Ok (lit "summary"))
    (Ok []) (Ok samplePlan).

Arguments isParserUrl : simpl never.
Arguments parserUrl : simpl never.
Arguments searchUrl : simpl never.

(** ** Notions for the further properties *)

(** [content] without its line terminators. *)
Definition dropLineTerminators (s : jsstring) : jsstring :=
  filter (fun c => negb (isLineTerminator c)) s.

(** The model calls one run of the summarizer makes on [content] when
    every call answers: one per chunk, and the reduce call when there is
    more than one chunk. *)
Definition summarizerCalls (content : jsstring) : nat :=
  let k := length (orEmpty (String_match chunkSize content)) in
  k + (if 1 <? k then 1 else 0).

(** A call of the fast text model without system instruction. *)
Definition isFastText (ev : Event) : bool :=
  match ev with
  | EvGenerateText fastModel None _ _ => true
  | _ => false
  end.

(** The calls a research task may make: fetches, the URL selection by
    the flagship model, and calls of the fast text model. *)
Definition isTaskEvent (ev : Event) : bool :=
  match ev with
  | EvFetch _ _ => true
  | EvGenerateUrls flagshipModel _ _ => true
  | EvGenerateText fastModel None _ _ => true
  | _ => false
  end.

(** Whatever its outcome, a run of [m] only appends events, all of them
    satisfying [P]. *)
Definition Emits {W A} (P : Event -> bool) (m : M W A) : Prop :=
  forall st : State W,
  exists evs, Extends st (snd (m st)) evs /\ forallb P evs = true.

(** The search requests of one search phase, from page [page] on, with
    their outcomes. *)
Definition searchRequests (query : jsstring) (page : nat)
    (results : list (Outcome Response)) : list Event :=
  mapi_from page (fun r p => EvFetch (searchUrl query p) r) results.

(** The text model is out of quota: every call throws. *)
Definition textThrowsServices : Services nat :=
  fakeServices echoPage onePageOfHits (Throw (lit "quota exceeded"))
    (Ok [urlA]) (Ok samplePlan).

(** The search provider answers page 1 and times out on page 2. *)
Definition searchThrowsServices : Services nat :=
  fakeServices echoPage
    (fun k => if k <=? 1 then searchPage [hit urlA]
              else Throw (lit "timeout"))
    (Ok (lit "summary")) (Ok [urlA]) (Ok samplePlan).

(** The exception an external call ended with: the one [fetch] or a
    model call threw, or the one parsing the body of the response
    throws. *)
Definition failureOf (ev : Event) : option Exn :=
  match ev with
  | EvFetch _ (Throw e) => Some e
  | EvFetch _ (Ok res) =>
      match json res with
      | Throw e => Some e
      | Ok _ => None
      end
  | EvGenerateText _ _ _ (Throw e) => Some e
  | EvGenerateUrls _ _ (Throw e) => Some e
  | EvGeneratePlan _ _ _ (Throw e) => Some e
  | _ => None
  end.

(** A run of [m] only appends events, and when it throws, one of the
    calls it made ended with the exception thrown. *)
Definition Traced {W A} (m : M W A) : Prop :=
  forall st : State W,
  exists evs,
    Extends st (snd (m st)) evs /\
    forall e, fst (m st) = Throw e ->
              exists ev, In ev evs /\ failureOf ev = Some e.

(** ** Notions for the revised statements *)

(** A page content of 121 code units: 60 "x", a line feed, 60 "x". *)
Definition twoLines : jsstring := repeat 120%N 60 ++ [10%N] ++ repeat 120%N 60.

(** A world whose text model answers every prompt with the prompt
    itself. *)
Definition promptEchoServices : Services nat :=
  {| fetch := fun u n => (Throw (lit "offline"), n);
     generateText := fun _ _ prompt n => (Ok prompt, n);
     generateUrls := fun _ _ n => (Ok [], n);
     generatePlan := fun _ _ _ n => (Throw (lit "offline"), n);
     JSON_stringify := fun _ => lit "[]" |}.

(** Search finds nothing on any page and the selector answers with two
    URLs all the same. *)
Definition eagerSelectorServices : Services nat :=
  fakeServices echoPage (fun _ => searchPage []) (Ok (lit "summary"))
    (Ok [urlA; urlB]) (Ok samplePlan).

(** The references a fetched page gives rise to, in the words of the
    specification: the (url, title) pair of the page when the fetch
    status is success (200) and the content is present and at least 100
    units long, and nothing otherwise. *)
Definition referenceOf (res : Response) : list Reference :=
  match json res with
  | Ok (JPage title (Some content) url) =>
      if ((status res =? 200)%Z && (100 <=? length content))%bool
      then [{| ref_url := url; ref_title := title |}]
      else []
  | _ => []
  end.

(** * Proofs *)

(** Evaluates the closed run [t] and records its value as [H]. *)
Ltac evaluate_run t H :=
  let v := eval vm_compute in t in
  assert (H : t = v) by (vm_compute; reflexivity).


(** ** Reasoning about runs *)

Section Runs.

Context {W : Type}.

Lemma ret_Ok {A} (a b : A) (st st' : State W) :
  ret a st = (Ok b, st') <-> a = b /\ st = st'.
Proof.
  unfold ret; split.
  - intros H; inversion H; auto.
  - intros [-> ->]; reflexivity.
Qed.

Lemma liftOutcome_Ok {A} (o : Outcome A) (a : A) (st st' : State W) :
  liftOutcome o st = (Ok a, st') <-> o = Ok a /\ st = st'.
Proof.
  unfold liftOutcome; split.
  - intros H; inversion H; auto.
  - intros [-> ->]; reflexivity.
Qed.

Lemma bind_Ok {A B} (m : M W A) (k : A -> M W B) st b st' :
  bind m k st = (Ok b, st') <->
  exists a st1, m st = (Ok a, st1) /\ k a st1 = (Ok b, st').
Proof.
  unfold bind; split.
  - destruct (m st) as [[a|e] st1]; intros H.
    + exists a, st1; auto.
    + discriminate.
  - intros (a & st1 & -> & H); exact H.
Qed.

Lemma bind_Throw_l {A B} (m : M W A) (k : A -> M W B) st e st' :
  m st = (Throw e, st') -> bind m k st = (Throw e, st').
Proof. unfold bind; intros ->; reflexivity. Qed.

Lemma call_Ok {A} (op : W -> Outcome A * W) ev (st : State W) a st' :
  call op ev st = (Ok a, st') <->
  exists w', op (world st) = (Ok a, w') /\
             st' = {| world := w'; trace := trace st ++ [ev (Ok a)] |}.
Proof.
  unfold call; split.
  - destruct (op (world st)) as [r w']; intros H; inversion H; subst.
    exists w'; auto.
  - intros (w' & -> & ->); reflexivity.
Qed.

Lemma Extends_newEvents (st st' : State W) evs :
  Extends st st' evs -> newEvents st st' = evs.
Proof.
  unfold Extends, newEvents; intros ->.
  rewrite skipn_app, skipn_all, Nat.sub_diag; reflexivity.
Qed.

Lemma Extends_refl (st : State W) : Extends st st [].
Proof. unfold Extends; now rewrite app_nil_r. Qed.

Lemma Extends_trans (st1 st2 st3 : State W) e1 e2 :
  Extends st1 st2 e1 -> Extends st2 st3 e2 -> Extends st1 st3 (e1 ++ e2).
Proof. unfold Extends; intros H1 H2; now rewrite H2, H1, app_assoc. Qed.

Lemma Extends_call (st : State W) w' ev :
  Extends st {| world := w'; trace := trace st ++ [ev] |} [ev].
Proof. reflexivity. Qed.

Lemma mapM_Ok {A B} (f : A -> M W B) xs (st : State W) ys st' :
  mapM f xs st = (Ok ys, st') <-> RunAll f st xs ys st'.
Proof.
  split.
  - revert st ys; induction xs as [|x xs IH]; simpl; intros st ys H.
    + apply ret_Ok in H as [<- <-]; constructor.
    + apply bind_Ok in H as (y & st1 & Hy & H).
      apply bind_Ok in H as (ys' & st2 & Hys & H).
      apply ret_Ok in H as [<- <-].
      econstructor; eauto.
  - induction 1 as [|st x y st1 xs ys st2 Hy _ IH]; simpl.
    + reflexivity.
    + apply bind_Ok; exists y, st1; split; [exact Hy|].
      apply bind_Ok; exists ys, st2; split; [exact IH|reflexivity].
Qed.

Lemma RunAll_length {A B} (f : A -> M W B) (st : State W) xs ys st' :
  RunAll f st xs ys st' -> length ys = length xs.
Proof. induction 1; simpl; congruence. Qed.

Lemma RunAll_total {A B} (f : A -> M W B) xs :
  (forall x st, exists y st', f x st = (Ok y, st')) ->
  forall st, exists ys st', RunAll f st xs ys st'.
Proof.
  intros Hf; induction xs as [|x xs IH]; intros st.
  - exists [], st; constructor.
  - destruct (Hf x st) as (y & st1 & Hy).
    destruct (IH st1) as (ys & st2 & Hys).
    exists (y :: ys), st2; econstructor; eauto.
Qed.

End Runs.

(** ** Chunking *)

Lemma matchAll_cons n c s :
  matchAll n (c :: s) =
  match dotRun n (c :: s) with
  | ([], _) => matchAll n s
  | (m, r) => m :: matchAll n r
  end.
Proof.
  simp matchAll.
  destruct (inspect (dotRun n (c :: s))) as [[[|c1 m] r] E];
    simp matchAll; rewrite E; reflexivity.
Qed.

Lemma FixedChunks_shape n s cs :
  FixedChunks n s cs ->
  concat cs = s /\
  Forall (fun c => 1 <= length c <= n) cs /\
  Forall (fun c => length c = n) (removelast cs).
Proof.
  induction 1 as [|s Hs|c s cs Hc Hne _ (IH1 & IH2 & IH3)].
  - repeat split; constructor.
  - simpl; rewrite app_nil_r; repeat split; repeat constructor; lia.
  - repeat split.
    + simpl; now rewrite IH1.
    + constructor; [|exact IH2].
      destruct cs as [|c' cs']; [contradiction|].
      inversion IH2 as [|? ? Hc' _]; subst. lia.
    + destruct cs as [|c' cs']; [contradiction|].
      change (removelast (c :: c' :: cs')) with (c :: removelast (c' :: cs')).
      constructor; assumption.
Qed.

Lemma FixedChunks_nonempty n s cs :
  FixedChunks n s cs -> s <> [] -> cs <> [].
Proof. destruct 1; intros Hs; try discriminate. contradiction. Qed.

Lemma dotRun_noLT n s :
  noLineTerminator s = true -> dotRun n s = (firstn n s, skipn n s).
Proof.
  revert s; induction n as [|n IH]; intros [|c s] H; simpl; try reflexivity.
  simpl in H. apply andb_true_iff in H as [Hc Hs].
  apply negb_true_iff in Hc. rewrite Hc, (IH s Hs). reflexivity.
Qed.

Lemma noLineTerminator_skipn n s :
  noLineTerminator s = true -> noLineTerminator (skipn n s) = true.
Proof.
  unfold noLineTerminator; rewrite !forallb_forall.
  intros H c Hc. apply H. rewrite <- (firstn_skipn n s).
  apply in_or_app; now right.
Qed.

(** On content without line terminators the matches of [.{1,n}] are the
    fixed-size chunks. *)
Lemma matchAll_fixed n s :
  0 < n -> noLineTerminator s = true -> FixedChunks n s (matchAll n s).
Proof.
  intros Hn.
  induction s as [s IH] using (induction_ltof1 _ (@length char16)).
  unfold ltof in IH. intros Hs.
  destruct s as [|c s']; [simp matchAll; constructor|].
  rewrite matchAll_cons, (dotRun_noLT n _ Hs).
  destruct n as [|n']; [lia|].
  change (firstn (S n') (c :: s')) with (c :: firstn n' s').
  set (r := skipn (S n') (c :: s')).
  assert (Hr : noLineTerminator r = true)
    by (apply noLineTerminator_skipn; exact Hs).
  assert (Hsplit : (c :: firstn n' s') ++ r = c :: s')
    by (exact (firstn_skipn (S n') (c :: s'))).
  assert (Hlen : length r = length (c :: s') - S n')
    by (apply length_skipn).
  assert (Hfst : length (c :: firstn n' s') = Nat.min (S n') (length (c :: s')))
    by (exact (length_firstn (S n') (c :: s'))).
  simpl in Hlen, Hfst.
  destruct r as [|c2 r'] eqn:Er.
  - simp matchAll. rewrite app_nil_r in Hsplit. rewrite Hsplit.
    apply FC_last. simpl in *. lia.
  - rewrite <- Hsplit. apply FC_full.
    + simpl in *. lia.
    + apply FixedChunks_nonempty with (n := S n') (s := c2 :: r');
        [|discriminate].
      apply IH; [simpl in *; lia|exact Hr].
    + apply IH; [simpl in *; lia|exact Hr].
Qed.

Lemma matchAll_single n s :
  noLineTerminator s = true -> 1 <= length s <= n -> matchAll n s = [s].
Proof.
  intros Hs Hn. destruct s as [|c s']; [simpl in Hn; lia|].
  rewrite matchAll_cons, (dotRun_noLT n _ Hs).
  rewrite firstn_all2 by lia. rewrite skipn_all2 by lia.
  simp matchAll. reflexivity.
Qed.

Lemma matchAll_onlyLineTerminators n s :
  onlyLineTerminators s = true -> matchAll n s = [].
Proof.
  induction s as [|c s IH]; intros H; [simp matchAll; reflexivity|].
  simpl in H. apply andb_true_iff in H as [Hc Hs].
  rewrite matchAll_cons.
  assert (E : dotRun n (c :: s) = ([], c :: s))
    by (destruct n; simpl; [|rewrite Hc]; reflexivity).
  rewrite E. exact (IH Hs).
Qed.

Lemma orEmpty_String_match n s : orEmpty (String_match n s) = matchAll n s.
Proof. unfold String_match; destruct (matchAll n s); reflexivity. Qed.

Lemma chunkSize_pos : 0 < chunkSize.
Proof. unfold chunkSize; lia. Qed.

(** ** Runs of the summarizer *)

Section Summarizer.

Context {W : Type} (sv : Services W).

Lemma genText_Ok model prompt (st : State W) text st' :
  genText sv model prompt st = (Ok text, st') ->
  Extends st st' [EvGenerateText model None prompt (Ok text)].
Proof.
  unfold genText; intros H.
  apply call_Ok in H as (w' & _ & ->). apply Extends_call.
Qed.

Lemma genText_total model prompt :
  (forall m s p w, exists t w', generateText sv m s p w = (Ok t, w')) ->
  forall st : State W, exists text st',
    genText sv model prompt st = (Ok text, st').
Proof.
  intros Htext st. destruct (Htext model None prompt (world st)) as (t & w' & E).
  exists t. eexists. apply call_Ok. exists w'; split; [exact E|reflexivity].
Qed.

Lemma mapiM_chunks title research total chunks :
  forall i (st : State W) texts st',
    mapiM_from i
      (fun chunk index =>
         genText sv fastModel (chunkPrompt title research total chunk index))
      chunks st = (Ok texts, st') ->
    length texts = length chunks /\
    Extends st st' (chunkEvents title research total i chunks texts).
Proof.
  induction chunks as [|chunk chunks IH]; simpl; intros i st texts st' H.
  - apply ret_Ok in H as [<- <-]. split; [reflexivity|apply Extends_refl].
  - apply bind_Ok in H as (t & st1 & Ht & H).
    apply bind_Ok in H as (ts & st2 & Hts & H).
    apply ret_Ok in H as [<- <-].
    apply genText_Ok in Ht. apply IH in Hts as [Hlen Hext].
    split; [simpl; congruence|].
    exact (Extends_trans Ht Hext).
Qed.

Lemma mapiM_chunks_total title research total chunks :
  (forall m s p w, exists t w', generateText sv m s p w = (Ok t, w')) ->
  forall i (st : State W), exists texts st',
    mapiM_from i
      (fun chunk index =>
         genText sv fastModel (chunkPrompt title research total chunk index))
      chunks st = (Ok texts, st').
Proof.
  intros Htext. induction chunks as [|chunk chunks IH]; simpl; intros i st.
  - exists [], st; reflexivity.
  - destruct (genText_total fastModel
                (chunkPrompt title research total chunk i) Htext st)
      as (t & st1 & Ht).
    destruct (IH (S i) st1) as (ts & st2 & Hts).
    exists (t :: ts), st2.
    apply bind_Ok; exists t, st1; split; [exact Ht|].
    apply bind_Ok; exists ts, st2; split; [exact Hts|reflexivity].
Qed.

Lemma chunkEvents_length title research total i chunks texts :
  length texts = length chunks ->
  length (chunkEvents title research total i chunks texts) = length chunks.
Proof.
  unfold chunkEvents. revert i texts.
  induction chunks as [|c chunks IH]; intros i [|t texts] H;
    simpl in *; try discriminate; try reflexivity.
  f_equal. apply IH. congruence.
Qed.

Lemma chunkEvents_isGenerateText title research total i chunks texts :
  forallb isGenerateText (chunkEvents title research total i chunks texts)
  = true.
Proof.
  unfold chunkEvents. generalize (combine chunks texts) as l. intros l.
  revert i; induction l as [|x l IH]; intros i; simpl; auto.
Qed.

(** A successful run of [summarizeContent]: the map pass over the chunks
    and, with more than one chunk, the reduce call. *)
Lemma summarizeContent_run content title url research (st : State W) r st' :
  summarizeContent sv content title url research st = (Ok r, st') ->
  let chunks := orEmpty (String_match chunkSize content) in
  exists texts,
    length texts = length chunks /\
    let mapEvents :=
      chunkEvents title research (length chunks) 0 chunks texts in
    if 1 <? length chunks then
      exists final,
        r = Some final /\
        Extends st st'
          (mapEvents ++
           [EvGenerateText fastModel None
              (combinePrompt title research texts) (Ok final)])
    else r = nth_error texts 0 /\ Extends st st' mapEvents.
Proof.
  unfold summarizeContent; intros H; cbv zeta in *.
  set (chunks := orEmpty (String_match chunkSize content)) in *.
  unfold mapiM in H.
  apply bind_Ok in H as (texts & st1 & Hmap & H).
  apply mapiM_chunks in Hmap as [Hlen Hext].
  exists texts; split; [exact Hlen|].
  rewrite Hlen in H.
  destruct (1 <? length chunks).
  - apply bind_Ok in H as (final & st2 & Hfinal & H).
    apply ret_Ok in H as [<- <-]. apply genText_Ok in Hfinal.
    exists final; split; [reflexivity|].
    exact (Extends_trans Hext Hfinal).
  - apply ret_Ok in H as [<- <-]. split; [reflexivity|exact Hext].
Qed.

Lemma summarizeContent_total content title url research :
  (forall m s p w, exists t w', generateText sv m s p w = (Ok t, w')) ->
  forall st : State W, exists r st',
    summarizeContent sv content title url research st = (Ok r, st').
Proof.
  intros Htext st. unfold summarizeContent.
  set (chunks := orEmpty (String_match chunkSize content)).
  unfold mapiM.
  destruct (mapiM_chunks_total title research (length chunks) chunks
              Htext 0 st) as (texts & st1 & Hmap).
  destruct (1 <? length texts) eqn:E.
  - destruct (genText_total fastModel (combinePrompt title research texts)
                Htext st1) as (final & st2 & Hfinal).
    exists (Some final), st2.
    apply bind_Ok; exists texts, st1; split; [exact Hmap|].
    rewrite E. apply bind_Ok; exists final, st2; split;
      [exact Hfinal|reflexivity].
  - exists (nth_error texts 0), st1.
    apply bind_Ok; exists texts, st1; split; [exact Hmap|].
    rewrite E. reflexivity.
Qed.

End Summarizer.

(** ** Properties of the summarizer, the model-only runner and the report prompt *)

(** C2.  The code on a page content of 121 code units, 60 "x", a line
    feed and 60 "x": the content passes the validity test of
    [fetchWebContent] and is well within the chunk size, and yet it is cut
    at the line feed into two chunks of 60; the summarizer makes three
    model calls for it, two map calls ("part 1/2", "part 2/2") and the
    reduce call, and returns the answer of the reduce call, not that of a
    single call on the content. *)
Lemma summarizeContent_cuts_at_line_feed :
  let run := summarizeContent promptEchoServices twoLines [] [] (sampleTask web)
               initState in
  let part1 := chunkPrompt [] (sampleTask web) 2 (repeat 120%N 60) 0 in
  let part2 := chunkPrompt [] (sampleTask web) 2 (repeat 120%N 60) 1 in
  let reduce := combinePrompt [] (sampleTask web) [part1; part2] in
  length twoLines = 121 /\
  (length twoLines =? 0) || (length twoLines <? 100) = false /\
  length twoLines <= chunkSize /\
  orEmpty (String_match chunkSize twoLines)
  = [repeat 120%N 60; repeat 120%N 60] /\
  summarizerCalls twoLines = 3 /\
  fst run = Ok (Some reduce) /\
  newEvents initState (snd run) =
    [EvGenerateText fastModel None part1 (Ok part1);
     EvGenerateText fastModel None part2 (Ok part2);
     EvGenerateText fastModel None reduce (Ok reduce)].
Proof.
  cbv zeta. split; [reflexivity|]. split; [reflexivity|].
  split; [unfold chunkSize; simpl; lia|].
  repeat split; vm_compute; reflexivity.
Qed.

(** C9.  Content made of 100 line feeds passes the validity test of
    [fetchWebContent] (it is not empty and not shorter than 100), yet the
    chunking step finds no chunk in it, and [summarizeContent] makes no
    model call and returns [undefined] ([None]) where a string is
    declared. *)
Theorem summarizeContent_newlines_undefined {W} (sv : Services W) :
  exists content : jsstring,
    100 <= length content /\
    (length content =? 0) || (length content <? 100) = false /\
    Forall (fun c => c = 10%N) content /\
    orEmpty (String_match chunkSize content) = [] /\
    forall title url research (st : State W),
      summarizeContent sv content title url research st = (Ok None, st).
Proof.
  exists (repeat 10%N 100).
  assert (Hnone : orEmpty (String_match chunkSize (repeat 10%N 100)) = []).
  { rewrite orEmpty_String_match.
    apply matchAll_onlyLineTerminators. reflexivity. }
  split; [rewrite repeat_length; lia|].
  split; [reflexivity|].
  split; [apply Forall_forall; intros c Hc; now apply repeat_spec in Hc|].
  split; [exact Hnone|].
  intros title url research st. unfold summarizeContent.
  rewrite Hnone. reflexivity.
Qed.

(** C8.  The model-only runner makes exactly one call, to the text
    service, with the task's query as the whole prompt and no system
    instruction; when the call answers, the result carries that answer
    and an empty reference list, and when it throws, the runner throws. *)
Theorem processAiResearch_single_call {W} (sv : Services W)
    (research : ResearchPlan) (st : State W) :
  let (r, w') :=
    generateText sv fastModel None (rp_query research) (world st) in
  processAiResearch sv research st =
  (match r with
   | Ok text => Ok {| answer := text; references := [] |}
   | Throw e => Throw e
   end,
   {| world := w';
      trace := trace st ++
               [EvGenerateText fastModel None (rp_query research) r] |}).
Proof.
  unfold processAiResearch, genText, bind, call.
  destruct (generateText sv fastModel None (rp_query research) (world st))
    as [[text|e] w']; reflexivity.
Qed.

(** C10.  In the report prompt the test on [e.references] is always true
    (an array is truthy, even when empty): the block of every task result
    is its number, its answer and a "References:" header followed by the
    entries; for a result without references the header is followed by
    nothing.  The prompt contains the blocks of all results, joined by
    line feeds. *)
Theorem resultBlock_references_header (e : ResearchSummary) (i : nat) :
  toBoolean (Some (references e)) = true /\
  resultBlock e i =
    numToString (i + 1) ++ lit ". " ++ answer e ++ nl ++ lit "References:"
      ++ join nl (map refLine (references e)) /\
  resultBlock {| answer := answer e; references := [] |} i =
    numToString (i + 1) ++ lit ". " ++ answer e ++ nl ++ lit "References:" /\
  forall plan summaries, exists before after,
    reportPrompt plan summaries =
    before ++ join nl (mapi resultBlock summaries) ++ after.
Proof.
  split; [reflexivity|]. split; [reflexivity|]. split.
  - unfold resultBlock, toBoolean, references, answer.
    change (join nl (map refLine [])) with (@nil char16).
    now rewrite app_nil_r.
  - intros plan summaries. unfold reportPrompt.
    exists (lit "You're conducting a research, the title is "
              ++ plan_title plan ++ lit "." ++ nl
              ++ lit "Your objective is: " ++ plan_objectives plan
              ++ lit "." ++ nl
              ++ lit "Here is the expected outcomes: "
              ++ plan_expectedOutcomes plan ++ lit "." ++ nl ++ nl
              ++ lit "Here is the current research plan:" ++ nl
              ++ join nl (mapi planLine (plan_researchPlan plan)) ++ nl ++ nl
              ++ lit "Here is the result based on the research plan above:"
              ++ nl),
           (nl ++ nl ++ requirements ++ plan_language plan).
    repeat rewrite <- app_assoc. reflexivity.
Qed.

(** ** Runs of the web runner *)

Section WebRunner.

Context {W : Type} (sv : Services W).

Lemma startsWith_app p s : startsWith p (p ++ s) = true.
Proof.
  induction p as [|a p IH]; simpl; [reflexivity|].
  now rewrite N.eqb_refl, IH.
Qed.

Lemma isParserUrl_parserUrl u : isParserUrl (parserUrl u) = true.
Proof. apply startsWith_app. Qed.

Lemma isParserUrl_searchUrl q p : isParserUrl (searchUrl q p) = false.
Proof. reflexivity. Qed.

Lemma fetchWebContent_Ok url (st : State W) r st' :
  fetchWebContent sv url st = (Ok r, st') ->
  exists res w',
    fetch sv (parserUrl url) (world st) = (Ok res, w') /\
    st' = {| world := w';
             trace := trace st ++ [EvFetch (parserUrl url) (Ok res)] |} /\
    r = validPage res.
Proof.
  unfold fetchWebContent; intros H.
  apply bind_Ok in H as (res & st1 & Hcall & H).
  apply call_Ok in Hcall as (w' & Hfetch & ->).
  exists res, w'; split; [exact Hfetch|].
  unfold validPage.
  destruct (status res =? 200)%Z; simpl in H.
  - apply bind_Ok in H as (data & st2 & Hjson & H).
    apply liftOutcome_Ok in Hjson as [Hjson <-]. rewrite Hjson.
    destruct data as [title [content|] url'|results];
      try (apply ret_Ok in H as [<- <-]; split; reflexivity).
    replace (100 <=? length content)
      with (negb ((length content =? 0) || (length content <? 100))).
    + destruct ((length content =? 0) || (length content <? 100));
        apply ret_Ok in H as [<- <-]; split; reflexivity.
    + destruct (Nat.eqb_spec (length content) 0),
               (Nat.ltb_spec (length content) 100),
               (Nat.leb_spec 100 (length content));
        simpl; try reflexivity; lia.
  - apply ret_Ok in H as [<- <-]. split; reflexivity.
Qed.

(** A page fetch resolves whenever [fetch] does and, for a 200 response,
    the body parses; status and content do not matter. *)
Lemma fetchWebContent_total url (st : State W) res w' :
  fetch sv (parserUrl url) (world st) = (Ok res, w') ->
  ((status res =? 200)%Z = true -> exists data, json res = Ok data) ->
  exists r st', fetchWebContent sv url st = (Ok r, st').
Proof.
  intros Hfetch Hjson. unfold fetchWebContent.
  set (st1 := {| world := w';
                 trace := trace st ++ [EvFetch (parserUrl url) (Ok res)] |}).
  assert (Hcall : call (fetch sv (parserUrl url)) (EvFetch (parserUrl url)) st
                  = (Ok res, st1))
    by (apply call_Ok; exists w'; split; [exact Hfetch|reflexivity]).
  destruct (status res =? 200)%Z eqn:Estatus.
  - destruct (Hjson eq_refl) as (data & Hdata).
    assert (Hb : forall k : Json -> M W (option WebContent),
               (exists r st', k data st1 = (Ok r, st')) ->
               exists r st',
                 bind (call (fetch sv (parserUrl url))
                         (EvFetch (parserUrl url)))
                   (fun res0 =>
                      if negb (status res0 =? 200)%Z then ret None
                      else bind (liftOutcome (json res0)) k) st
                 = (Ok r, st')).
    { intros k (r & st' & Hk). exists r, st'.
      apply bind_Ok; exists res, st1; split; [exact Hcall|].
      rewrite Estatus; simpl.
      apply bind_Ok; exists data, st1; split; [|exact Hk].
      apply liftOutcome_Ok; auto. }
    apply Hb.
    destruct data as [title [content|] url'|results];
      try (eexists; eexists; reflexivity).
    destruct ((length content =? 0) || (length content <? 100));
      eexists; eexists; reflexivity.
  - exists None, st1.
    apply bind_Ok; exists res, st1; split; [exact Hcall|].
    rewrite Estatus; reflexivity.
Qed.

Lemma fetchAll_run urls :
  forall (st : State W) contents st',
    RunAll (fetchWebContent sv) st urls contents st' ->
    exists resps,
      length resps = length urls /\
      Extends st st' (pageEvents urls resps) /\
      contents = map validPage resps.
Proof.
  induction urls as [|u urls IH]; intros st contents st' H;
    inversion H as [|? ? c st1 ? cs ? Hc Hcs]; subst.
  - exists []; repeat split. apply Extends_refl.
  - apply fetchWebContent_Ok in Hc as (res & w' & _ & -> & ->).
    apply IH in Hcs as (resps & Hlen & Hext & ->).
    exists (res :: resps); split; [simpl; congruence|]. split.
    + exact (Extends_trans (Extends_call st w' _) Hext).
    + reflexivity.
Qed.

Lemma pageResponses_app e1 e2 :
  pageResponses (e1 ++ e2) = pageResponses e1 ++ pageResponses e2.
Proof. apply flat_map_app. Qed.

Lemma pageResponses_pageEvents urls resps :
  length resps = length urls ->
  pageResponses (pageEvents urls resps) = resps.
Proof.
  unfold pageEvents. revert resps.
  induction urls as [|u urls IH]; intros [|r resps] H;
    simpl in *; try discriminate; try reflexivity.
  rewrite ?isParserUrl_parserUrl. simpl. f_equal. apply IH. congruence.
Qed.

Lemma pageResponses_searchEvents q page resps :
  pageResponses (searchEvents q page resps) = [].
Proof.
  unfold searchEvents. revert page.
  induction resps as [|r resps IH]; intros page; simpl; [reflexivity|].
  rewrite ?isParserUrl_searchUrl. apply IH.
Qed.

Lemma pageResponses_generateText evs :
  forallb isGenerateText evs = true -> pageResponses evs = [].
Proof.
  induction evs as [|ev evs IH]; simpl; [reflexivity|].
  intros H. apply andb_true_iff in H as [Hev Hevs].
  destruct ev; try discriminate. simpl. now apply IH.
Qed.

End WebRunner.

Section SearchLoop.

Context {W : Type} (sv : Services W) (query : jsstring).

Lemma copy_results (results : list SearchResult) :
  map (fun result => {| sr_title := sr_title result;
                        sr_url := sr_url result;
                        sr_content := sr_content result |}) results
  = results.
Proof.
  induction results as [|[t u c] results IH]; simpl; [reflexivity|].
  now rewrite IH.
Qed.

Lemma hitsOf_prop_results res data :
  json res = Ok data ->
  hitsOf res = match prop_results data with Some hits => hits | None => [] end.
Proof.
  unfold hitsOf; intros ->. destruct data as [? ? ?|[hits|]]; reflexivity.
Qed.

(** One turn of the loop on a page with hits, and on a page without. *)
Lemma searchLoop_more remaining page acc (st : State W) res data w' :
  fetch sv (searchUrl query page) (world st) = (Ok res, w') ->
  json res = Ok data ->
  hitsOf res <> [] ->
  searchLoop sv query (S remaining) page acc st =
  searchLoop sv query remaining (S page) (acc ++ hitsOf res)
    {| world := w';
       trace := trace st ++ [EvFetch (searchUrl query page) (Ok res)] |}.
Proof.
  intros Hfetch Hjson Hhits.
  rewrite (hitsOf_prop_results _ Hjson) in *.
  cbn [searchLoop]. unfold bind at 1, call at 1. rewrite Hfetch.
  unfold bind at 1, liftOutcome at 1. rewrite Hjson.
  destruct (prop_results data) as [[|h hits]|]; try contradiction.
  now rewrite copy_results.
Qed.

Lemma searchLoop_stop remaining page acc (st : State W) res data w' :
  fetch sv (searchUrl query page) (world st) = (Ok res, w') ->
  json res = Ok data ->
  hitsOf res = [] ->
  searchLoop sv query (S remaining) page acc st =
  (Ok acc,
   {| world := w';
      trace := trace st ++ [EvFetch (searchUrl query page) (Ok res)] |}).
Proof.
  intros Hfetch Hjson Hhits.
  rewrite (hitsOf_prop_results _ Hjson) in *.
  cbn [searchLoop]. unfold bind at 1, call at 1. rewrite Hfetch.
  unfold bind at 1, liftOutcome at 1. rewrite Hjson.
  destruct (prop_results data) as [[|h hits]|]; try discriminate;
    reflexivity.
Qed.

Lemma searchLoop_Ok_inv remaining page acc (st : State W) all st' :
  searchLoop sv query (S remaining) page acc st = (Ok all, st') ->
  exists res data w',
    fetch sv (searchUrl query page) (world st) = (Ok res, w') /\
    json res = Ok data.
Proof.
  cbn [searchLoop]; intros H.
  apply bind_Ok in H as (res & st1 & Hcall & H).
  apply call_Ok in Hcall as (w' & Hfetch & ->).
  apply bind_Ok in H as (data & st2 & Hjson & _).
  apply liftOutcome_Ok in Hjson as [Hjson _].
  exists res, data, w'; auto.
Qed.

(** A search phase that resolved: the pages were requested in order from
    [page] on, every page but the last one requested had hits, the hits
    of all pages were appended in order, and the loop went on to the page
    limit unless the last page requested had no hits. *)
Lemma searchLoop_run remaining :
  forall page acc (st : State W) all st',
    searchLoop sv query remaining page acc st = (Ok all, st') ->
    exists resps,
      Extends st st' (searchEvents query page resps) /\
      length resps <= remaining /\
      all = acc ++ concat (map hitsOf resps) /\
      Forall (fun res => hitsOf res <> []) (removelast resps) /\
      (length resps = remaining \/
       exists pre res, resps = pre ++ [res] /\ hitsOf res = []).
Proof.
  induction remaining as [|remaining IH]; intros page acc st all st' H.
  - apply ret_Ok in H as [<- <-]. exists []; simpl.
    rewrite app_nil_r. repeat split; auto. apply Extends_refl.
  - destruct (searchLoop_Ok_inv _ _ _ _ H) as (res & data & w' & Hf & Hj).
    destruct (hitsOf res) as [|h hits] eqn:Ehits.
    + rewrite (searchLoop_stop remaining _ acc _ Hf Hj Ehits) in H.
      inversion H; subst. exists [res]; simpl.
      rewrite Ehits, app_nil_r. repeat split; auto; try lia.
      right. exists [], res; auto.
    + assert (Hne : hitsOf res <> []) by (rewrite Ehits; discriminate).
      rewrite (searchLoop_more remaining _ acc _ Hf Hj Hne) in H.
      apply IH in H as (resps & Hext & Hlen & -> & Hall & Hend).
      exists (res :: resps). repeat split.
      * exact (Extends_trans (Extends_call st w' _) Hext).
      * simpl; lia.
      * simpl. now rewrite <- app_assoc.
      * destruct resps as [|r2 resps]; [constructor|].
        change (removelast (res :: r2 :: resps))
          with (res :: removelast (r2 :: resps)).
        constructor; assumption.
      * destruct Hend as [Hend|(pre & r & -> & Hr)].
        -- left; simpl; congruence.
        -- right. exists (res :: pre), r; auto.
Qed.

Lemma searchLoop_total :
  (forall p w, exists res data w',
      fetch sv (searchUrl query p) w = (Ok res, w') /\ json res = Ok data) ->
  forall remaining page acc (st : State W), exists all st',
    searchLoop sv query remaining page acc st = (Ok all, st').
Proof.
  intros Hsearch. induction remaining as [|remaining IH]; intros page acc st.
  - exists acc, st; reflexivity.
  - destruct (Hsearch page (world st)) as (res & data & w' & Hf & Hj).
    destruct (hitsOf res) as [|h hits] eqn:Ehits.
    + rewrite (searchLoop_stop remaining _ acc _ Hf Hj Ehits).
      eexists; eexists; reflexivity.
    + assert (Hne : hitsOf res <> []) by (rewrite Ehits; discriminate).
      rewrite (searchLoop_more remaining _ acc _ Hf Hj Hne). apply IH.
Qed.

End SearchLoop.

(** C6.  The search phase of the web runner requests pages 1, 2, ... in
    order and stops at the first page without results (zero or absent)
    or after 5 pages; the hits of the requested pages are appended in
    order, nothing is removed.  With results on pages 1 to 3 and none on
    page 4, exactly four requests are made, for pages 1 to 4. *)
Theorem search_pagination {W} (sv : Services W) (query : jsstring) :
  (forall (st : State W) all st',
     searchLoop sv query MAX_PAGES 1 [] st = (Ok all, st') ->
     exists resps,
       newEvents st st' = searchEvents query 1 resps /\
       length resps <= 5 /\
       all = concat (map hitsOf resps) /\
       Forall (fun res => hitsOf res <> []) (removelast resps) /\
       (length resps = 5 \/
        exists pre res, resps = pre ++ [res] /\ hitsOf res = [])) /\
  ((forall p w, 1 <= p <= 3 ->
      exists res data w',
        fetch sv (searchUrl query p) w = (Ok res, w') /\
        json res = Ok data /\ hitsOf res <> []) ->
   (forall w,
      exists res data w',
        fetch sv (searchUrl query 4) w = (Ok res, w') /\
        json res = Ok data /\ hitsOf res = []) ->
   forall st : State W,
   exists r1 r2 r3 r4 st',
     searchLoop sv query MAX_PAGES 1 [] st
     = (Ok (hitsOf r1 ++ hitsOf r2 ++ hitsOf r3), st') /\
     newEvents st st' =
       [EvFetch (searchUrl query 1) (Ok r1);
        EvFetch (searchUrl query 2) (Ok r2);
        EvFetch (searchUrl query 3) (Ok r3);
        EvFetch (searchUrl query 4) (Ok r4)]).
Proof.
  split.
  - intros st all st' H.
    apply searchLoop_run in H as (resps & Hext & Hlen & Hall & Hne & Hend).
    exists resps. apply Extends_newEvents in Hext. auto.
  - intros Hfull Hempty st. unfold MAX_PAGES.
    destruct (Hfull 1 (world st)) as (r1 & d1 & w1 & Hf1 & Hj1 & Hh1); [lia|].
    rewrite (searchLoop_more sv query 4 1 [] st Hf1 Hj1 Hh1).
    set (st1 := {| world := w1; trace := _ |}).
    destruct (Hfull 2 w1) as (r2 & d2 & w2 & Hf2 & Hj2 & Hh2); [lia|].
    rewrite (searchLoop_more sv query 3 2 _ st1 Hf2 Hj2 Hh2).
    set (st2 := {| world := w2; trace := _ |}).
    destruct (Hfull 3 w2) as (r3 & d3 & w3 & Hf3 & Hj3 & Hh3); [lia|].
    rewrite (searchLoop_more sv query 2 3 _ st2 Hf3 Hj3 Hh3).
    set (st3 := {| world := w3; trace := _ |}).
    destruct (Hempty w3) as (r4 & d4 & w4 & Hf4 & Hj4 & Hh4).
    rewrite (searchLoop_stop sv query 1 4 _ st3 Hf4 Hj4 Hh4).
    exists r1, r2, r3, r4. eexists. split.
    + simpl. now rewrite <- app_assoc.
    + apply Extends_newEvents. unfold Extends, st3, st2, st1; simpl.
      now rewrite <- !app_assoc.
Qed.

Section WebTask.

Context {W : Type} (sv : Services W).

(** The five steps of a web task that resolved, with the states between
    them. *)
Lemma processWebResearch_phases research (st : State W) res st' :
  processWebResearch sv research st = (Ok res, st') ->
  exists hits st1 urls st2 contents st3 summaries st4,
    searchLoop sv (rp_query research) MAX_PAGES 1 [] st = (Ok hits, st1) /\
    getRelevantUrls sv hits research st1 = (Ok urls, st2) /\
    RunAll (fetchWebContent sv) st2 urls contents st3 /\
    RunAll (summarizePage sv research) st3 (filterNonNull contents)
      summaries st4 /\
    genText sv fastModel (answerPrompt research summaries) st4
    = (Ok (answer res), st') /\
    references res = map toReference (filterNonNull contents).
Proof.
  unfold processWebResearch; intros H.
  apply bind_Ok in H as (hits & st1 & Hsearch & H).
  apply bind_Ok in H as (urls & st2 & Hurls & H).
  apply bind_Ok in H as (contents & st3 & Hfetch & H).
  apply bind_Ok in H as (summaries & st4 & Hsum & H).
  apply bind_Ok in H as (text & st5 & Htext & H).
  apply ret_Ok in H as [<- <-].
  apply mapM_Ok in Hfetch. apply mapM_Ok in Hsum.
  exists hits, st1, urls, st2, contents, st3, summaries, st4.
  repeat split; assumption.
Qed.

Lemma processWebResearch_compose research (st : State W)
    hits st1 urls st2 contents st3 summaries st4 :
  searchLoop sv (rp_query research) MAX_PAGES 1 [] st = (Ok hits, st1) ->
  getRelevantUrls sv hits research st1 = (Ok urls, st2) ->
  RunAll (fetchWebContent sv) st2 urls contents st3 ->
  RunAll (summarizePage sv research) st3 (filterNonNull contents)
    summaries st4 ->
  processWebResearch sv research st =
  bind (genText sv fastModel (answerPrompt research summaries))
       (fun text =>
          ret {| answer := text;
                 references := map toReference (filterNonNull contents) |})
       st4.
Proof.
  intros Hsearch Hurls Hfetch Hsum.
  apply mapM_Ok in Hfetch. apply mapM_Ok in Hsum.
  unfold processWebResearch.
  unfold bind at 1; rewrite Hsearch.
  unfold bind at 1; rewrite Hurls.
  unfold bind at 1; rewrite Hfetch.
  unfold bind at 1. unfold summarizePage in Hsum. rewrite Hsum.
  reflexivity.
Qed.

Lemma summarizeAll_run research pages :
  forall (st : State W) summaries st',
    RunAll (summarizePage sv research) st pages summaries st' ->
    exists evs, Extends st st' evs /\ forallb isGenerateText evs = true.
Proof.
  induction pages as [|page pages IH]; intros st summaries st' H;
    inversion H as [|? ? s st1 ? ss ? Hs Hss]; subst.
  - exists []; split; [apply Extends_refl|reflexivity].
  - apply IH in Hss as (evs2 & Hext2 & Hall2).
    apply (summarizeContent_run sv (wc_content page) (wc_title page)
             (wc_url page) research) in Hs.
    cbv zeta in Hs.
    destruct Hs as (texts & Hlen & Hs).
    set (chunks := orEmpty (String_match chunkSize (wc_content page))) in *.
    destruct (1 <? length chunks).
    + destruct Hs as (final & _ & Hext1).
      eexists; split; [exact (Extends_trans Hext1 Hext2)|].
      now rewrite !forallb_app, chunkEvents_isGenerateText, Hall2.
    + destruct Hs as [_ Hext1].
      eexists; split; [exact (Extends_trans Hext1 Hext2)|].
      now rewrite forallb_app, chunkEvents_isGenerateText, Hall2.
Qed.

(** What a web task that resolved added to the trace: the search
    requests, the URL selection, one fetch per selected URL, and model
    calls. *)
Lemma processWebResearch_trace research (st : State W) res st' :
  processWebResearch sv research st = (Ok res, st') ->
  exists searchResps urls pageResps textEvents,
    Extends st st'
      (searchEvents (rp_query research) 1 searchResps
       ++ [EvGenerateUrls flagshipModel
             (urlsPrompt sv (concat (map hitsOf searchResps)) research)
             (Ok urls)]
       ++ pageEvents urls pageResps
       ++ textEvents) /\
    length pageResps = length urls /\
    forallb isGenerateText textEvents = true /\
    references res = map toReference (filterNonNull (map validPage pageResps)).
Proof.
  intros H.
  apply processWebResearch_phases in H
    as (hits & st1 & urls & st2 & contents & st3 & summaries & st4
        & Hsearch & Hurls & Hfetch & Hsum & Htext & Hrefs).
  apply searchLoop_run in Hsearch as (searchResps & Hext1 & _ & Hhits & _).
  simpl in Hhits; subst hits.
  unfold getRelevantUrls in Hurls.
  apply call_Ok in Hurls as (w2 & _ & ->).
  apply fetchAll_run in Hfetch as (pageResps & Hlen & Hext3 & ->).
  apply summarizeAll_run in Hsum as (evs4 & Hext4 & Hall4).
  apply genText_Ok in Htext.
  exists searchResps, urls, pageResps,
    (evs4 ++ [EvGenerateText fastModel None
                (answerPrompt research summaries) (Ok (answer res))]).
  split; [|split; [exact Hlen|split; [|exact Hrefs]]].
  - pose proof (Extends_trans Hext1 (Extends_trans (Extends_call st1 w2 _)
                                         Hext3)) as E13.
    pose proof (Extends_trans E13 (Extends_trans Hext4 Htext)) as E.
    unfold Extends in *. rewrite E. now rewrite <- !app_assoc.
  - now rewrite forallb_app, Hall4.
Qed.

Lemma processWebResearch_references research (st : State W) res st' :
  processWebResearch sv research st = (Ok res, st') ->
  references res =
  map toReference
    (filterNonNull (map validPage (pageResponses (newEvents st st')))).
Proof.
  intros H.
  apply processWebResearch_trace in H
    as (searchResps & urls & pageResps & textEvents
        & Hext & Hlen & Hall & ->).
  apply Extends_newEvents in Hext. rewrite Hext.
  rewrite !pageResponses_app, pageResponses_searchEvents.
  rewrite (pageResponses_pageEvents _ _ Hlen).
  rewrite (pageResponses_generateText _ Hall).
  simpl. now rewrite app_nil_r.
Qed.

Lemma fetchAll_total urls :
  (forall u w, exists res w',
      fetch sv (parserUrl u) w = (Ok res, w') /\
      ((status res =? 200)%Z = true -> exists data, json res = Ok data)) ->
  forall st : State W, exists contents st',
    RunAll (fetchWebContent sv) st urls contents st'.
Proof.
  intros Hpage. apply RunAll_total. intros u st.
  destruct (Hpage u (world st)) as (res & w' & Hf & Hj).
  exact (fetchWebContent_total sv u st Hf Hj).
Qed.

Lemma processWebResearch_total :
  (forall m s p w, exists t w', generateText sv m s p w = (Ok t, w')) ->
  (forall m p w, exists urls w', generateUrls sv m p w = (Ok urls, w')) ->
  (forall q p w, exists res data w',
      fetch sv (searchUrl q p) w = (Ok res, w') /\ json res = Ok data) ->
  (forall u w, exists res w',
      fetch sv (parserUrl u) w = (Ok res, w') /\
      ((status res =? 200)%Z = true -> exists data, json res = Ok data)) ->
  forall research (st : State W), exists res st',
    processWebResearch sv research st = (Ok res, st').
Proof.
  intros Htext Hurls Hsearch Hpage research st.
  destruct (searchLoop_total sv (rp_query research)
              (Hsearch (rp_query research)) MAX_PAGES 1 [] st)
    as (hits & st1 & H1).
  destruct (Hurls flagshipModel (urlsPrompt sv hits research) (world st1))
    as (urls & w2 & H2).
  assert (H2' : getRelevantUrls sv hits research st1
                = (Ok urls,
                   {| world := w2;
                      trace := trace st1 ++
                        [EvGenerateUrls flagshipModel
                           (urlsPrompt sv hits research) (Ok urls)] |}))
    by (apply call_Ok; exists w2; auto).
  set (st2 := {| world := w2; trace := _ |}) in H2'.
  destruct (fetchAll_total urls Hpage st2) as (contents & st3 & H3).
  destruct (RunAll_total (summarizePage sv research) (filterNonNull contents)
              (fun page st0 =>
                 summarizeContent_total sv (wc_content page) (wc_title page)
                   (wc_url page) research Htext st0) st3)
    as (summaries & st4 & H4).
  destruct (genText_total sv fastModel (answerPrompt research summaries)
              Htext st4) as (text & st5 & H5).
  rewrite processWebResearch_compose
    with (1 := H1) (2 := H2') (3 := H3) (4 := H4).
  eexists; eexists. apply bind_Ok. exists text, st5. split; [exact H5|].
  reflexivity.
Qed.

End WebTask.

Section FakeWorld.

Variables (pages : jsstring -> Outcome Response)
          (search : nat -> Outcome Response) (text : Outcome jsstring)
          (urls : Outcome (list jsstring)) (plan : Outcome Plan).

Let sv := fakeServices pages search text urls plan.

Lemma fake_fetch_page u w : fetch sv (parserUrl u) w = (pages u, w).
Proof. reflexivity. Qed.

Lemma fake_fetch_search q p w :
  fetch sv (searchUrl q p) w = (search (pageOfUrl (searchUrl q p)), S w).
Proof. reflexivity. Qed.

Lemma fake_text_total t :
  text = Ok t ->
  forall m s p w, exists t' w', generateText sv m s p w = (Ok t', w').
Proof. intros -> m s p w. exists t, w. reflexivity. Qed.

Lemma fake_urls_total us :
  urls = Ok us ->
  forall m p w, exists us' w', generateUrls sv m p w = (Ok us', w').
Proof. intros -> m p w. exists us, w. reflexivity. Qed.

Lemma fake_search_total :
  (forall k, exists hits, search k = searchPage hits) ->
  forall q p w, exists res data w',
    fetch sv (searchUrl q p) w = (Ok res, w') /\ json res = Ok data.
Proof.
  intros Hs q p w. rewrite fake_fetch_search.
  destruct (Hs (pageOfUrl (searchUrl q p))) as (hits & ->).
  eexists; eexists; eexists; split; reflexivity.
Qed.

Lemma fake_page_total :
  (forall u, exists res,
      pages u = Ok res /\
      ((status res =? 200)%Z = true -> exists data, json res = Ok data)) ->
  forall u w, exists res w',
    fetch sv (parserUrl u) w = (Ok res, w') /\
    ((status res =? 200)%Z = true -> exists data, json res = Ok data).
Proof.
  intros Hp u w. rewrite fake_fetch_page.
  destruct (Hp u) as (res & -> & Hj). exists res, w; auto.
Qed.

End FakeWorld.

Lemma onePageOfHits_searchPage k : exists hits, onePageOfHits k = searchPage hits.
Proof. unfold onePageOfHits; destruct (k <=? 1); eexists; reflexivity. Qed.

Lemma oneDownPage_ok u :
  exists res,
    oneDownPage u = Ok res /\
    ((status res =? 200)%Z = true -> exists data, json res = Ok data).
Proof.
  unfold oneDownPage. destruct (startsWith urlDown u); eexists; split;
    try reflexivity; simpl; intros H; [discriminate|eexists; reflexivity].
Qed.

Lemma search_pagination_witness :
  exists r1 r2 r3 r4 st',
    searchLoop threePagesServices (rp_query (sampleTask web)) MAX_PAGES 1 []
      initState
    = (Ok (hitsOf r1 ++ hitsOf r2 ++ hitsOf r3), st') /\
    newEvents initState st' =
      [EvFetch (searchUrl (rp_query (sampleTask web)) 1) (Ok r1);
       EvFetch (searchUrl (rp_query (sampleTask web)) 2) (Ok r2);
       EvFetch (searchUrl (rp_query (sampleTask web)) 3) (Ok r3);
       EvFetch (searchUrl (rp_query (sampleTask web)) 4) (Ok r4)].
Proof.
  apply (proj2 (search_pagination threePagesServices
                  (rp_query (sampleTask web)))).
  - intros p w Hp.
    assert (Hcases : p = 1 \/ p = 2 \/ p = 3) by lia.
    destruct Hcases as [->|[->| ->]];
      eexists; eexists; eexists;
      (split; [reflexivity|split; [reflexivity|discriminate]]).
  - intros w. eexists; eexists; eexists.
    split; [reflexivity|split; reflexivity].
Defined.

(** C1, as stated, fails: when [fetch] throws for a selected page, or a
    200 response has a body that is not JSON, the web task throws that
    exception and produces no result. *)
Lemma fetch_exception_fails_task :
  fst (processWebResearch fetchThrowsServices (sampleTask web) initState)
  = Throw (lit "connection reset") /\
  fst (processWebResearch badJsonServices (sampleTask web) initState)
  = Throw (lit "Unexpected token <").
Proof. split; vm_compute; reflexivity. Qed.

Lemma references_flat_map resps :
  map toReference (filterNonNull (map validPage resps))
  = flat_map referenceOf resps.
Proof.
  induction resps as [|resp resps IH]; [reflexivity|].
  cbn [map flat_map]. rewrite <- IH. unfold validPage, referenceOf.
  destruct (status resp =? 200)%Z;
    destruct (json resp) as [[title [content|] url|results]|e];
    try reflexivity;
    cbn [andb]; destruct (100 <=? length content); reflexivity.
Qed.

Lemma fetchWebContent_Ok_parsed {W} (sv : Services W) url (st : State W)
    r st' :
  fetchWebContent sv url st = (Ok r, st') ->
  exists res w',
    fetch sv (parserUrl url) (world st) = (Ok res, w') /\
    st' = {| world := w';
             trace := trace st ++ [EvFetch (parserUrl url) (Ok res)] |} /\
    r = validPage res /\
    ((status res =? 200)%Z = true -> exists data, json res = Ok data).
Proof.
  intros H.
  destruct (fetchWebContent_Ok sv url st H) as (res & w' & Hfetch & Hst & Hr).
  exists res, w'. split; [exact Hfetch|]. split; [exact Hst|].
  split; [exact Hr|]. intros Hstatus.
  unfold fetchWebContent in H.
  apply bind_Ok in H as (res0 & st1 & Hcall & H).
  apply call_Ok in Hcall as (w0 & Hfetch0 & ->).
  rewrite Hfetch in Hfetch0. inversion Hfetch0; subst res0 w0.
  rewrite Hstatus in H. cbn [negb] in H.
  apply bind_Ok in H as (data & st2 & Hjson & _).
  apply liftOutcome_Ok in Hjson as [Hjson _]. exists data; exact Hjson.
Qed.

Lemma fetchAll_run_parsed {W} (sv : Services W) urls :
  forall (st : State W) contents st',
    RunAll (fetchWebContent sv) st urls contents st' ->
    exists resps,
      length resps = length urls /\
      Extends st st' (pageEvents urls resps) /\
      contents = map validPage resps /\
      Forall (fun resp => (status resp =? 200)%Z = true ->
                          exists data, json resp = Ok data) resps.
Proof.
  induction urls as [|u urls IH]; intros st contents st' H;
    inversion H as [|? ? c st1 ? cs ? Hc Hcs]; subst.
  - exists []; repeat split; [apply Extends_refl|constructor].
  - apply fetchWebContent_Ok_parsed in Hc as (res & w' & _ & -> & -> & Hp).
    apply IH in Hcs as (resps & Hlen & Hext & -> & Hall).
    exists (res :: resps); split; [simpl; congruence|]. split.
    + exact (Extends_trans (Extends_call st w' _) Hext).
    + split; [reflexivity|]. constructor; assumption.
Qed.

Lemma In_searchEvents u r q page resps :
  In (EvFetch u r) (searchEvents q page resps) -> isParserUrl u = false.
Proof.
  unfold searchEvents. revert page.
  induction resps as [|resp resps IH]; intros page; simpl; [tauto|].
  intros [H|H]; [|exact (IH _ H)].
  inversion H; subst. apply isParserUrl_searchUrl.
Qed.

Lemma In_pageEvents u r urls resps :
  In (EvFetch u r) (pageEvents urls resps) ->
  exists resp, r = Ok resp /\ In resp resps.
Proof.
  unfold pageEvents. revert resps.
  induction urls as [|u0 urls IH]; intros [|resp resps]; simpl;
    try tauto.
  intros [H|H].
  - inversion H; subst. exists resp; auto.
  - destruct (IH _ H) as (resp' & Hr & Hin). exists resp'; auto.
Qed.

(** The page fetches of a web task that resolved all answered, and the
    body of every 200 answer parsed. *)
Lemma processWebResearch_pages_answered {W} (sv : Services W)
    research (st : State W) res st' :
  processWebResearch sv research st = (Ok res, st') ->
  forall u r,
    In (EvFetch (parserUrl u) r) (newEvents st st') ->
    exists resp,
      r = Ok resp /\
      ((status resp =? 200)%Z = true -> exists data, json resp = Ok data).
Proof.
  intros H u r Hin.
  apply processWebResearch_phases in H
    as (hits & st1 & urls & st2 & contents & st3 & summaries & st4
        & Hsearch & Hurls & Hfetch & Hsum & Htext & Hrefs).
  apply searchLoop_run in Hsearch as (searchResps & Hext1 & _).
  unfold getRelevantUrls in Hurls.
  apply call_Ok in Hurls as (w2 & _ & ->).
  apply fetchAll_run_parsed in Hfetch as (pageResps & Hlen & Hext3 & _ & Hall).
  apply summarizeAll_run in Hsum as (evs4 & Hext4 & Hall4).
  apply genText_Ok in Htext.
  pose proof (Extends_trans Hext1 (Extends_trans (Extends_call st1 w2 _)
                                     Hext3)) as E13.
  pose proof (Extends_trans E13 (Extends_trans Hext4 Htext)) as E.
  rewrite (Extends_newEvents E) in Hin.
  repeat (apply in_app_or in Hin; destruct Hin as [Hin|Hin]).
  - apply In_searchEvents in Hin.
    rewrite isParserUrl_parserUrl in Hin. discriminate.
  - destruct Hin as [Hin|[]]. discriminate.
  - apply In_pageEvents in Hin as (resp & -> & Hin).
    exists resp; split; [reflexivity|].
    rewrite Forall_forall in Hall. exact (Hall resp Hin).
  - rewrite forallb_forall in Hall4. apply Hall4 in Hin. discriminate.
  - destruct Hin as [Hin|[]]. discriminate.
Qed.

(** C1 (amended).  A page answered with a status other than 200, or with
    missing or short content, is left out and does not fail the task:
    when no external call throws (the body of a response is parsed only
    for the search pages and for pages answered with status 200) and the
    bodies have the declared shapes, the web task produces a result,
    whose references are those of the valid pages among the pages
    fetched, in fetch order.  An exception of [fetch] or of the parsing
    of the body of a 200 answer is not caught: a web task resolves only
    if every page fetch answered and the body of every 200 answer
    parsed. *)
Theorem bad_pages_are_omitted {W} (sv : Services W) :
  ((forall m s p w, exists t w', generateText sv m s p w = (Ok t, w')) ->
   (forall m p w, exists urls w', generateUrls sv m p w = (Ok urls, w')) ->
   (forall q p w, exists res data w',
       fetch sv (searchUrl q p) w = (Ok res, w') /\ json res = Ok data) ->
   (forall u w, exists res w',
       fetch sv (parserUrl u) w = (Ok res, w') /\
       ((status res =? 200)%Z = true -> exists data, json res = Ok data)) ->
   forall research (st : State W), exists res st',
     processWebResearch sv research st = (Ok res, st') /\
     references res =
     flat_map referenceOf (pageResponses (newEvents st st'))) /\
  (forall research (st : State W) res st',
     processWebResearch sv research st = (Ok res, st') ->
     forall u r,
       In (EvFetch (parserUrl u) r) (newEvents st st') ->
       exists resp,
         r = Ok resp /\
         ((status resp =? 200)%Z = true -> exists data, json resp = Ok data)).
Proof.
  split.
  - intros Htext Hurls Hsearch Hpage research st.
    destruct (processWebResearch_total sv Htext Hurls Hsearch Hpage research st)
      as (res & st' & Hrun).
    exists res, st'; split; [exact Hrun|].
    rewrite <- references_flat_map.
    exact (processWebResearch_references sv research st Hrun).
  - intros research st res st'. apply processWebResearch_pages_answered.
Qed.

Lemma bad_pages_are_omitted_witness :
  exists res st',
    processWebResearch oneDownServices (sampleTask web) initState
    = (Ok res, st') /\
    references res =
    flat_map referenceOf (pageResponses (newEvents initState st')).
Proof.
  apply (proj1 (bad_pages_are_omitted oneDownServices)).
  - exact (fake_text_total _ _ _ _ eq_refl).
  - exact (fake_urls_total _ _ _ _ eq_refl).
  - apply fake_search_total. exact onePageOfHits_searchPage.
  - apply fake_page_total. exact oneDownPage_ok.
Defined.

(** C4.  The references of a web task that resolved are exactly the
    (url, title) pairs of the valid pages among the pages it fetched, in
    fetch order: every reference comes from a response with status 200
    whose content is present and at least 100 units long, and every such
    response is referenced.  The answer plays no part. *)
Theorem references_are_valid_pages {W} (sv : Services W)
    research (st : State W) res st' :
  processWebResearch sv research st = (Ok res, st') ->
  let pages := pageResponses (newEvents st st') in
  references res = flat_map referenceOf pages /\
  (forall ref, In ref (references res) ->
     exists resp content,
       In resp pages /\
       status resp = 200%Z /\
       json resp = Ok (JPage (ref_title ref) (Some content) (ref_url ref)) /\
       100 <= length content) /\
  (forall resp title content url,
     In resp pages ->
     status resp = 200%Z ->
     json resp = Ok (JPage title (Some content) url) ->
     100 <= length content ->
     In {| ref_url := url; ref_title := title |} (references res)).
Proof.
  intros Hrun pages.
  assert (Hrefs : references res = flat_map referenceOf pages).
  { unfold pages. rewrite <- references_flat_map.
    exact (processWebResearch_references sv research st Hrun). }
  split; [exact Hrefs|]. rewrite Hrefs. split.
  - intros ref Hin. apply in_flat_map in Hin as (resp & Hresp & Hin).
    unfold referenceOf in Hin.
    destruct (json resp) as [[title [content|] url|results]|e] eqn:Ejson;
      try contradiction.
    destruct (Z.eqb_spec (status resp) 200) as [Hstatus|];
      [|contradiction].
    destruct (Nat.leb_spec 100 (length content)); [|contradiction].
    destruct Hin as [<-|[]]. exists resp, content. simpl. auto.
  - intros resp title content url Hresp Hstatus Hjson Hlen.
    apply in_flat_map. exists resp; split; [exact Hresp|].
    unfold referenceOf. rewrite Hjson, Hstatus.
    destruct (Nat.leb_spec 100 (length content)); [|lia].
    now left.
Qed.

Lemma references_are_valid_pages_witness :
  exists res st',
    processWebResearch oneDownServices (sampleTask web) initState
    = (Ok res, st') /\
    let pages := pageResponses (newEvents initState st') in
    references res = flat_map referenceOf pages /\
    (forall ref, In ref (references res) ->
       exists resp content,
         In resp pages /\
         status resp = 200%Z /\
         json resp = Ok (JPage (ref_title ref) (Some content) (ref_url ref)) /\
         100 <= length content) /\
    (forall resp title content url,
       In resp pages ->
       status resp = 200%Z ->
       json resp = Ok (JPage title (Some content) url) ->
       100 <= length content ->
       In {| ref_url := url; ref_title := title |} (references res)).
Proof.
  evaluate_run
    (processWebResearch oneDownServices (sampleTask web) initState) Hrun.
  match type of Hrun with
  | _ = (Ok ?res, ?st') => exists res, st'
  end.
  split; [exact Hrun|].
  exact (references_are_valid_pages _ _ _ Hrun).
Defined.





(** C7, as stated, fails in the case it includes: with zero search hits
    on every page requested, the selector is still consulted, the two
    URLs it answers with are fetched, and both pages are referenced. *)
Lemma zero_hits_yet_references :
  fst (searchLoop eagerSelectorServices (rp_query (sampleTask web))
         MAX_PAGES 1 [] initState) = Ok [] /\
  fst (processWebResearch eagerSelectorServices (sampleTask web) initState)
  = Ok {| answer := lit "summary";
          references := [{| ref_url := urlA; ref_title := lit "Title" |};
                         {| ref_url := urlB; ref_title := lit "Title" |}] |}.
Proof. split; vm_compute; reflexivity. Qed.

(** C7 (amended).  When no page survives selection and fetching (whatever
    the search found, nothing included), the web runner still makes the
    final model call, with a prompt built from an empty list of
    summaries; it returns that call's answer with an empty reference
    list, and fails only if that call throws. *)
Theorem empty_evidence_still_answers {W} (sv : Services W)
    research (st : State W) hits st1 urls st2 contents st3 :
  searchLoop sv (rp_query research) MAX_PAGES 1 [] st = (Ok hits, st1) ->
  getRelevantUrls sv hits research st1 = (Ok urls, st2) ->
  RunAll (fetchWebContent sv) st2 urls contents st3 ->
  filterNonNull contents = [] ->
  let (r, w4) :=
    generateText sv fastModel None (answerPrompt research []) (world st3) in
  processWebResearch sv research st =
  (match r with
   | Ok text => Ok {| answer := text; references := [] |}
   | Throw e => Throw e
   end,
   {| world := w4;
      trace := trace st3 ++
               [EvGenerateText fastModel None (answerPrompt research []) r] |}).
Proof.
  intros Hsearch Hurls Hfetch Hnone.
  assert (Hsum : RunAll (summarizePage sv research) st3
                   (filterNonNull contents) [] st3)
    by (rewrite Hnone; constructor).
  rewrite processWebResearch_compose
    with (1 := Hsearch) (2 := Hurls) (3 := Hfetch) (4 := Hsum).
  rewrite Hnone. unfold bind, genText, call.
  destruct (generateText sv fastModel None (answerPrompt research [])
              (world st3)) as [[text|e] w4]; reflexivity.
Qed.

Lemma empty_evidence_still_answers_witness :
  processWebResearch noHitsServices (sampleTask web) initState =
  (Ok {| answer := lit "summary"; references := [] |},
   {| world := 1;
      trace :=
        [EvFetch (searchUrl (rp_query (sampleTask web)) 1)
           (searchPage []);
         EvGenerateUrls flagshipModel
           (urlsPrompt noHitsServices [] (sampleTask web)) (Ok []);
         EvGenerateText fastModel None (answerPrompt (sampleTask web) [])
           (Ok (lit "summary"))] |}).
Proof.
  evaluate_run
    (searchLoop noHitsServices (rp_query (sampleTask web)) MAX_PAGES 1 []
       initState) Hsearch.
  match type of Hsearch with
  | _ = (Ok ?hits, ?st1) =>
      evaluate_run
        (getRelevantUrls noHitsServices hits (sampleTask web) st1) Hurls
  end.
  match type of Hurls with
  | _ = (Ok _, ?st2) =>
      exact (@empty_evidence_still_answers _ noHitsServices (sampleTask web)
               _ _ _ _ _ _ _ Hsearch Hurls (RunAll_nil _ st2) eq_refl)
  end.
Defined.

(** ** The orchestrator *)

Section Orchestrator.

Context {W : Type} (sv : Services W) (systemPrompt : jsstring).



End Orchestrator.




(** * Further properties *)

(** ** The chunks of the summarizer *)

Lemma dotRun_fst n s :
  length (fst (dotRun n s)) <= n /\
  noLineTerminator (fst (dotRun n s)) = true.
Proof.
  revert s; induction n as [|n IH]; intros [|c s]; simpl;
    try (split; [lia|reflexivity]).
  destruct (isLineTerminator c) eqn:Ec; simpl;
    try (split; [lia|reflexivity]).
  specialize (IH s). destruct (dotRun n s) as [m r]; simpl in *.
  rewrite Ec; simpl. split; [lia|tauto].
Qed.

Lemma dotRun_split n s : fst (dotRun n s) ++ snd (dotRun n s) = s.
Proof.
  revert s; induction n as [|n IH]; intros [|c s]; simpl; try reflexivity.
  destruct (isLineTerminator c); [reflexivity|].
  specialize (IH s). destruct (dotRun n s) as [m r]; simpl in *.
  now rewrite IH.
Qed.

Lemma dotRun_lineTerminator n c s :
  isLineTerminator c = true -> dotRun n (c :: s) = ([], c :: s).
Proof. intros H; destruct n; simpl; [|rewrite H]; reflexivity. Qed.

Lemma dotRun_other n c s :
  isLineTerminator c = false ->
  dotRun (S n) (c :: s) = (c :: fst (dotRun n s), snd (dotRun n s)).
Proof. intros H; simpl; rewrite H. now destruct (dotRun n s). Qed.

Lemma dropLineTerminators_noLT s :
  noLineTerminator s = true -> dropLineTerminators s = s.
Proof.
  induction s as [|c s IH]; simpl; [reflexivity|].
  intros H. apply andb_true_iff in H as [-> Hs]. now rewrite (IH Hs).
Qed.

Lemma dropLineTerminators_app s t :
  dropLineTerminators (s ++ t)
  = dropLineTerminators s ++ dropLineTerminators t.
Proof. apply filter_app. Qed.

Lemma matchAll_chunks n s :
  0 < n ->
  Forall (fun chunk => 1 <= length chunk <= n /\
                       noLineTerminator chunk = true) (matchAll n s) /\
  concat (matchAll n s) = dropLineTerminators s.
Proof.
  intros Hn.
  induction s as [s IH] using (induction_ltof1 _ (@length char16)).
  unfold ltof in IH.
  destruct s as [|c s']; [simp matchAll; split; [constructor|reflexivity]|].
  rewrite matchAll_cons.
  destruct (isLineTerminator c) eqn:Ec.
  - rewrite (dotRun_lineTerminator n c s' Ec).
    destruct (IH s') as [Hall Hcat]; [simpl; lia|].
    split; [exact Hall|]. simpl. now rewrite Ec.
  - destruct n as [|n']; [lia|].
    rewrite (dotRun_other n' c s' Ec).
    pose proof (dotRun_fst n' s') as [Hlen Hno].
    pose proof (dotRun_split n' s') as Hsplit.
    destruct (IH (snd (dotRun n' s'))) as [Hall Hcat].
    { rewrite <- Hsplit at 2. simpl. rewrite length_app. lia. }
    split.
    + constructor; [|exact Hall]. simpl. rewrite Ec. simpl.
      split; [lia|exact Hno].
    + simpl. rewrite Ec, Hcat. simpl. f_equal.
      rewrite <- Hsplit at 3.
      now rewrite dropLineTerminators_app, (dropLineTerminators_noLT _ Hno).
Qed.

(** X1.  Whatever the content, every chunk the summarizer cuts holds
    between 1 and 10,000 code units and no line terminator, and the
    chunks put end to end are the content with its line terminators
    removed: chunking loses the line terminators and nothing else. *)
Theorem chunks_lose_only_line_terminators (content : jsstring) :
  let chunks := orEmpty (String_match chunkSize content) in
  Forall (fun chunk => 1 <= length chunk <= chunkSize /\
                       noLineTerminator chunk = true) chunks /\
  concat chunks = dropLineTerminators content.
Proof.
  cbv zeta. rewrite orEmpty_String_match.
  apply matchAll_chunks, chunkSize_pos.
Qed.

Lemma dropLineTerminators_nil s :
  dropLineTerminators s = [] <-> onlyLineTerminators s = true.
Proof.
  induction s as [|c s IH]; simpl; [tauto|].
  destruct (isLineTerminator c); simpl; [exact IH|].
  split; discriminate.
Qed.

Lemma matchAll_nil_iff n s :
  0 < n -> (matchAll n s = [] <-> onlyLineTerminators s = true).
Proof.
  intros Hn. destruct (matchAll_chunks s Hn) as [Hall Hcat].
  rewrite <- dropLineTerminators_nil, <- Hcat.
  destruct (matchAll n s) as [|chunk chunks]; [simpl; tauto|].
  inversion Hall as [|? ? [Hlen _] _]; subst.
  split; [discriminate|].
  destruct chunk; [simpl in Hlen; lia|discriminate].
Qed.

(** X2.  A run of the summarizer that resolves gives [undefined] exactly
    when the content holds nothing but line terminators (the empty string
    included), and then it has made no model call. *)
Theorem summarizeContent_undefined_iff {W} (sv : Services W)
    content title url research (st : State W) r st' :
  summarizeContent sv content title url research st = (Ok r, st') ->
  (r = None <-> onlyLineTerminators content = true) /\
  (r = None -> st' = st).
Proof.
  intros Hrun.
  assert (Hnil : orEmpty (String_match chunkSize content) = [] <->
                 onlyLineTerminators content = true).
  { rewrite orEmpty_String_match. apply matchAll_nil_iff, chunkSize_pos. }
  assert (Hnone : r = None ->
                  orEmpty (String_match chunkSize content) = []).
  { intros ->.
    pose proof (summarizeContent_run _ _ _ _ _ _ Hrun) as Hshape.
    cbv zeta in Hshape. destruct Hshape as (texts & Hlen & Hshape).
    destruct (orEmpty (String_match chunkSize content)) as [|c [|c2 cs]];
      [reflexivity| |].
    - simpl in Hshape. destruct Hshape as [Hr _].
      destruct texts; [discriminate Hlen|discriminate Hr].
    - simpl in Hshape. destruct Hshape as (final & Hr & _). discriminate. }
  split; [split|].
  - intros Hr. apply Hnil, Hnone, Hr.
  - intros Honly. apply Hnil in Honly.
    unfold summarizeContent in Hrun. rewrite Honly in Hrun.
    inversion Hrun; reflexivity.
  - intros Hr. apply Hnone in Hr.
    unfold summarizeContent in Hrun. rewrite Hr in Hrun.
    inversion Hrun; reflexivity.
Qed.

Lemma summarizeContent_undefined_iff_witness :
  exists r st',
    summarizeContent echoServices [10; 13]%N [] [] (sampleTask web) initState
    = (Ok r, st') /\
    (r = None <-> onlyLineTerminators [10; 13]%N = true) /\
    (r = None -> st' = initState).
Proof.
  evaluate_run
    (summarizeContent echoServices [10; 13]%N [] [] (sampleTask web)
       initState) Hrun.
  match type of Hrun with
  | _ = (Ok ?r, ?st') => exists r, st'
  end.
  split; [exact Hrun|].
  exact (summarizeContent_undefined_iff _ _ _ _ _ _ Hrun).
Defined.

Lemma FixedChunks_count n s cs :
  0 < n -> FixedChunks n s cs -> length cs = (length s + n - 1) / n.
Proof.
  intros Hn. induction 1 as [|s Hs|c s cs Hc Hne _ IH]; simpl.
  - symmetry. apply Nat.div_small. lia.
  - apply Nat.div_unique with (r := length s - 1); lia.
  - rewrite IH, length_app, Hc.
    replace (n + length s + n - 1) with (1 * n + (length s + n - 1)) by lia.
    rewrite Nat.div_add_l by lia. reflexivity.
Qed.

Lemma chunkEvents_isFastText title research total i chunks texts :
  forallb isFastText (chunkEvents title research total i chunks texts) = true.
Proof.
  unfold chunkEvents. generalize (combine chunks texts) as l. intros l.
  revert i; induction l as [|x l IH]; intros i; simpl; auto.
Qed.

Lemma summarizeContent_events {W} (sv : Services W)
    content title url research (st : State W) r st' :
  summarizeContent sv content title url research st = (Ok r, st') ->
  exists evs,
    Extends st st' evs /\
    length evs = summarizerCalls content /\
    forallb isFastText evs = true.
Proof.
  intros Hrun.
  pose proof (summarizeContent_run _ _ _ _ _ _ Hrun) as Hshape.
  cbv zeta in Hshape. destruct Hshape as (texts & Hlen & Hshape).
  unfold summarizerCalls. cbv zeta.
  set (chunks := orEmpty (String_match chunkSize content)) in *.
  destruct (1 <? length chunks).
  - destruct Hshape as (final & _ & Hext).
    eexists; split; [exact Hext|]. split.
    + rewrite length_app, chunkEvents_length by exact Hlen. reflexivity.
    + now rewrite forallb_app, chunkEvents_isFastText.
  - destruct Hshape as [_ Hext].
    eexists; split; [exact Hext|]. split.
    + rewrite chunkEvents_length by exact Hlen. lia.
    + apply chunkEvents_isFastText.
Qed.

(** X3.  A run of the summarizer that resolves has made exactly
    [summarizerCalls content] calls, all to the fast text model without
    system instruction, and nothing else.  For content of [L] code units
    without line terminators that number is [k = ceil (L / 10000)] calls
    for [k <= 1] and [k + 1] calls beyond. *)
Theorem summarizeContent_call_count {W} (sv : Services W)
    content title url research (st : State W) r st' :
  summarizeContent sv content title url research st = (Ok r, st') ->
  length (newEvents st st') = summarizerCalls content /\
  forallb isFastText (newEvents st st') = true /\
  (noLineTerminator content = true ->
   summarizerCalls content =
   let k := (length content + chunkSize - 1) / chunkSize in
   k + (if 1 <? k then 1 else 0)).
Proof.
  intros Hrun.
  destruct (summarizeContent_events _ _ _ _ _ _ Hrun)
    as (evs & Hext & Hlen & Hfast).
  apply Extends_newEvents in Hext. rewrite Hext.
  split; [exact Hlen|]. split; [exact Hfast|].
  intros Hno. unfold summarizerCalls. cbv zeta.
  rewrite orEmpty_String_match.
  rewrite (FixedChunks_count chunkSize_pos
             (matchAll_fixed content chunkSize_pos Hno)).
  reflexivity.
Qed.

Lemma summarizeContent_call_count_witness :
  exists r st',
    summarizeContent echoServices (lit "ab") [] [] (sampleTask web) initState
    = (Ok r, st') /\
    length (newEvents initState st') = summarizerCalls (lit "ab") /\
    forallb isFastText (newEvents initState st') = true /\
    summarizerCalls (lit "ab") =
    let k := (length (lit "ab") + chunkSize - 1) / chunkSize in
    k + (if 1 <? k then 1 else 0).
Proof.
  evaluate_run
    (summarizeContent echoServices (lit "ab") [] [] (sampleTask web)
       initState) Hrun.
  match type of Hrun with
  | _ = (Ok ?r, ?st') => exists r, st'
  end.
  split; [exact Hrun|].
  destruct (summarizeContent_call_count _ _ _ _ _ _ Hrun)
    as (Hlen & Hfast & Hformula).
  split; [exact Hlen|]. split; [exact Hfast|].
  apply Hformula. reflexivity.
Defined.

(** X4.  The calls of a run of the summarizer that resolves, in order:
    one map call per chunk, in chunk order, whose prompt names part
    [i + 1] of [K] and ends with the chunk; then, for [K > 1], one reduce
    call whose prompt joins the [K] answers in chunk order, separated by
    blank lines.  The result is the reduce answer for [K > 1] and the
    first map answer, if any, otherwise. *)
Theorem summarizeContent_calls_in_order {W} (sv : Services W)
    content title url research (st : State W) r st' :
  summarizeContent sv content title url research st = (Ok r, st') ->
  let chunks := orEmpty (String_match chunkSize content) in
  exists texts,
    length texts = length chunks /\
    if 1 <? length chunks then
      exists final,
        r = Some final /\
        newEvents st st' =
          chunkEvents title research (length chunks) 0 chunks texts
          ++ [EvGenerateText fastModel None
                (lit "Combine these summaries from " ++ dquote ++ title
                   ++ dquote
                   ++ lit " into a coherent summary. Focus on key points related to: "
                   ++ rp_objectives research
                   ++ nl ++ nl ++ lit "Summaries:" ++ nl
                   ++ join (nl ++ nl) texts)
                (Ok final)]
    else
      r = nth_error texts 0 /\
      newEvents st st' =
        chunkEvents title research (length chunks) 0 chunks texts.
Proof.
  intros Hrun chunks.
  pose proof (summarizeContent_run _ _ _ _ _ _ Hrun) as Hshape.
  cbv zeta in Hshape. fold chunks in Hshape.
  destruct Hshape as (texts & Hlen & Hshape).
  exists texts; split; [exact Hlen|].
  destruct (1 <? length chunks).
  - destruct Hshape as (final & Hr & Hext).
    exists final; split; [exact Hr|].
    apply Extends_newEvents in Hext. exact Hext.
  - destruct Hshape as [Hr Hext]. split; [exact Hr|].
    apply Extends_newEvents in Hext. exact Hext.
Qed.

Lemma summarizeContent_calls_in_order_witness :
  exists r st',
    summarizeContent echoServices [97; 10; 98]%N [] [] (sampleTask web)
      initState = (Ok r, st') /\
    let chunks := orEmpty (String_match chunkSize [97; 10; 98]%N) in
    exists texts,
      length texts = length chunks /\
      if 1 <? length chunks then
        exists final,
          r = Some final /\
          newEvents initState st' =
            chunkEvents [] (sampleTask web) (length chunks) 0 chunks texts
            ++ [EvGenerateText fastModel None
                  (lit "Combine these summaries from " ++ dquote ++ []
                     ++ dquote
                     ++ lit " into a coherent summary. Focus on key points related to: "
                     ++ rp_objectives (sampleTask web)
                     ++ nl ++ nl ++ lit "Summaries:" ++ nl
                     ++ join (nl ++ nl) texts)
                  (Ok final)]
      else
        r = nth_error texts 0 /\
        newEvents initState st' =
          chunkEvents [] (sampleTask web) (length chunks) 0 chunks texts.
Proof.
  evaluate_run
    (summarizeContent echoServices [97; 10; 98]%N [] [] (sampleTask web)
       initState) Hrun.
  match type of Hrun with
  | _ = (Ok ?r, ?st') => exists r, st'
  end.
  split; [exact Hrun|].
  exact (summarizeContent_calls_in_order _ _ _ _ _ _ Hrun).
Defined.

(** ** Runs of any outcome *)

Section AnyOutcome.

Context {W : Type}.

Lemma bind_Throw {A B} (m : M W A) (k : A -> M W B) (st : State W) e st' :
  bind m k st = (Throw e, st') <->
  m st = (Throw e, st') \/
  exists a st1, m st = (Ok a, st1) /\ k a st1 = (Throw e, st').
Proof.
  unfold bind; split.
  - destruct (m st) as [[a|e1] st1]; intros H.
    + right. exists a, st1; auto.
    + left. inversion H; reflexivity.
  - intros [->|(a & st1 & -> & H)]; [reflexivity|exact H].
Qed.

Lemma call_Throw {A} (op : W -> Outcome A * W) ev (st : State W) e st' :
  call op ev st = (Throw e, st') ->
  Extends st st' [ev (Throw e)].
Proof.
  unfold call. destruct (op (world st)) as [r w']; intros H.
  inversion H; subst. apply Extends_call.
Qed.

Lemma Emits_ret {A} P (a : A) : Emits P (@ret W A a).
Proof. intros st. exists []; split; [apply Extends_refl|reflexivity]. Qed.

Lemma Emits_liftOutcome {A} P (o : Outcome A) : Emits P (@liftOutcome W A o).
Proof. intros st. exists []; split; [apply Extends_refl|reflexivity]. Qed.

Lemma Emits_call {A} (P : Event -> bool) (op : W -> Outcome A * W) ev :
  (forall r, P (ev r) = true) -> Emits P (call op ev).
Proof.
  intros HP st. unfold call. destruct (op (world st)) as [r w'].
  exists [ev r]; split; [apply Extends_call|simpl; now rewrite HP].
Qed.

Lemma Emits_bind {A B} P (m : M W A) (k : A -> M W B) :
  Emits P m -> (forall a, Emits P (k a)) -> Emits P (bind m k).
Proof.
  intros Hm Hk st. destruct (Hm st) as (e1 & Hext1 & HP1).
  unfold bind. destruct (m st) as [[a|e] st1]; simpl in Hext1.
  - destruct (Hk a st1) as (e2 & Hext2 & HP2).
    exists (e1 ++ e2); split; [exact (Extends_trans Hext1 Hext2)|].
    now rewrite forallb_app, HP1, HP2.
  - exists e1; auto.
Qed.

Lemma Emits_mapM {A B} P (f : A -> M W B) xs :
  (forall x, Emits P (f x)) -> Emits P (mapM f xs).
Proof.
  intros Hf. induction xs as [|x xs IH]; simpl; [apply Emits_ret|].
  apply Emits_bind; [apply Hf|]. intros y.
  apply Emits_bind; [exact IH|]. intros ys. apply Emits_ret.
Qed.

Lemma Emits_mapiM_from {A B} P (f : A -> nat -> M W B) xs :
  (forall x i, Emits P (f x i)) -> forall i, Emits P (mapiM_from i f xs).
Proof.
  intros Hf. induction xs as [|x xs IH]; intros i; simpl; [apply Emits_ret|].
  apply Emits_bind; [apply Hf|]. intros y.
  apply Emits_bind; [apply IH|]. intros ys. apply Emits_ret.
Qed.

Lemma Emits_weaken {A} (P Q : Event -> bool) (m : M W A) :
  (forall ev, P ev = true -> Q ev = true) -> Emits P m -> Emits Q m.
Proof.
  intros HPQ Hm st. destruct (Hm st) as (evs & Hext & HP).
  exists evs; split; [exact Hext|].
  rewrite forallb_forall in *. auto.
Qed.

Lemma Emits_newEvents {A} P (m : M W A) (st : State W) :
  Emits P m ->
  trace (snd (m st)) = trace st ++ newEvents st (snd (m st)) /\
  forallb P (newEvents st (snd (m st))) = true.
Proof.
  intros Hm. destruct (Hm st) as (evs & Hext & HP).
  rewrite (Extends_newEvents Hext). split; [exact Hext|exact HP].
Qed.

End AnyOutcome.

Section TaskCalls.

Context {W : Type} (sv : Services W).

Lemma isFastText_isTaskEvent ev : isFastText ev = true -> isTaskEvent ev = true.
Proof.
  destruct ev as [u r|m sys p r|m p r|m sys p r]; simpl; try discriminate.
  destruct m, sys; auto.
Qed.

Lemma Emits_genText_fast prompt :
  Emits isFastText (genText sv fastModel prompt).
Proof. apply Emits_call. reflexivity. Qed.

Lemma Emits_summarizeContent content title url research :
  Emits isFastText (summarizeContent sv content title url research).
Proof.
  unfold summarizeContent. apply Emits_bind.
  - apply Emits_mapiM_from. intros chunk i. apply Emits_genText_fast.
  - intros texts. destruct (1 <? length texts); [|apply Emits_ret].
    apply Emits_bind; [apply Emits_genText_fast|].
    intros final. apply Emits_ret.
Qed.

Lemma Emits_fetchWebContent url :
  Emits isTaskEvent (fetchWebContent sv url).
Proof.
  unfold fetchWebContent. apply Emits_bind; [now apply Emits_call|].
  intros res. destruct (negb (status res =? 200)%Z); [apply Emits_ret|].
  apply Emits_bind; [apply Emits_liftOutcome|].
  intros [title [content|] url'|results]; try apply Emits_ret.
  destruct ((length content =? 0) || (length content <? 100));
    apply Emits_ret.
Qed.

Lemma Emits_searchLoop query remaining :
  forall page acc, Emits isTaskEvent (searchLoop sv query remaining page acc).
Proof.
  induction remaining as [|remaining IH]; intros page acc;
    cbn [searchLoop]; [apply Emits_ret|].
  apply Emits_bind; [now apply Emits_call|]. intros res.
  apply Emits_bind; [apply Emits_liftOutcome|]. intros data.
  destruct (prop_results data) as [[|h hits]|]; try apply Emits_ret.
  apply IH.
Qed.

Lemma Emits_processWebResearch research :
  Emits isTaskEvent (processWebResearch sv research).
Proof.
  unfold processWebResearch.
  apply Emits_bind; [apply Emits_searchLoop|]. intros hits.
  apply Emits_bind; [now apply Emits_call|]. intros urls.
  apply Emits_bind; [apply Emits_mapM, Emits_fetchWebContent|].
  intros contents.
  apply Emits_bind.
  { apply Emits_mapM. intros page.
    apply Emits_weaken with (P := isFastText);
      [exact isFastText_isTaskEvent|apply Emits_summarizeContent]. }
  intros summaries.
  apply Emits_bind; [|intros text; apply Emits_ret].
  apply Emits_weaken with (P := isFastText);
    [exact isFastText_isTaskEvent|apply Emits_genText_fast].
Qed.

Lemma Emits_processAiResearch research :
  Emits isTaskEvent (processAiResearch sv research).
Proof.
  unfold processAiResearch.
  apply Emits_bind; [|intros text; apply Emits_ret].
  apply Emits_weaken with (P := isFastText);
    [exact isFastText_isTaskEvent|apply Emits_genText_fast].
Qed.

Lemma Emits_dispatch research : Emits isTaskEvent (dispatch sv research).
Proof.
  unfold dispatch. destruct (rp_type research);
    [apply Emits_processWebResearch|apply Emits_processAiResearch].
Qed.

End TaskCalls.

(** X5.  Whatever its outcome - a result or an exception, at any point -
    a research task of either kind only adds calls to the trace, and only
    fetches, the URL selection by the flagship model and calls of the fast
    text model without system instruction: a task never calls the
    planner and never calls the flagship text model. *)
Theorem task_calls {W} (sv : Services W) (research : ResearchPlan)
    (st : State W) :
  let st' := snd (dispatch sv research st) in
  trace st' = trace st ++ newEvents st st' /\
  forallb isTaskEvent (newEvents st st') = true.
Proof.
  cbv zeta. apply Emits_newEvents with (P := isTaskEvent).
  apply Emits_dispatch.
Qed.

(** ** Failures of the summarizer and outcomes of a page fetch *)

Lemma genText_Throw {W} (sv : Services W) model prompt (st : State W) e st' :
  genText sv model prompt st = (Throw e, st') ->
  Extends st st' [EvGenerateText model None prompt (Throw e)].
Proof. unfold genText. apply call_Throw. Qed.

Lemma mapiM_chunks_Throw {W} (sv : Services W) title research total chunks :
  forall i (st : State W) e st',
    mapiM_from i
      (fun chunk index =>
         genText sv fastModel (chunkPrompt title research total chunk index))
      chunks st = (Throw e, st') ->
    exists evs prompt,
      Extends st st' evs /\
      In (EvGenerateText fastModel None prompt (Throw e)) evs /\
      length evs <= length chunks.
Proof.
  induction chunks as [|chunk chunks IH]; simpl; intros i st e st' H;
    [discriminate|].
  apply bind_Throw in H as [H|(t & st1 & Ht & H)].
  - apply genText_Throw in H. eexists; eexists.
    split; [exact H|]. split; [now left|simpl; lia].
  - apply genText_Ok in Ht.
    apply bind_Throw in H as [H|(ts & st2 & _ & H)]; [|discriminate].
    apply IH in H as (evs & prompt & Hext & Hin & Hlen).
    eexists; exists prompt. split; [exact (Extends_trans Ht Hext)|].
    split; [right; exact Hin|simpl; lia].
Qed.

(** X6.  The summarizer throws only what a model call threw: when a run
    throws [e], one of the calls it made is a call of the fast text model
    that failed with [e]; the run has made no more calls than a run that
    resolves, and nothing but model calls. *)
Theorem summarizeContent_throws_model_failure {W} (sv : Services W)
    content title url research (st : State W) e st' :
  summarizeContent sv content title url research st = (Throw e, st') ->
  (exists prompt,
     In (EvGenerateText fastModel None prompt (Throw e))
        (newEvents st st')) /\
  length (newEvents st st') <= summarizerCalls content /\
  forallb isFastText (newEvents st st') = true.
Proof.
  intros Hrun.
  assert (Hfast : forallb isFastText (newEvents st st') = true).
  { pose proof (Emits_newEvents st
                  (Emits_summarizeContent sv content title url research))
      as [_ H].
    rewrite Hrun in H. exact H. }
  split; [|split; [|exact Hfast]];
    unfold summarizeContent in Hrun; cbv zeta in Hrun;
    unfold summarizerCalls; cbv zeta;
    set (chunks := orEmpty (String_match chunkSize content)) in *;
    unfold mapiM in Hrun;
    apply bind_Throw in Hrun as [H|(texts & st1 & Hmap & H)].
  - apply mapiM_chunks_Throw in H as (evs & prompt & Hext & Hin & _).
    exists prompt. now rewrite (Extends_newEvents Hext).
  - apply mapiM_chunks in Hmap as [Hlen Hext].
    destruct (1 <? length texts); [|discriminate].
    apply bind_Throw in H as [H|(final & st2 & _ & H)]; [|discriminate].
    apply genText_Throw in H. eexists.
    rewrite (Extends_newEvents (Extends_trans Hext H)).
    apply in_or_app; right; now left.
  - apply mapiM_chunks_Throw in H as (evs & prompt & Hext & _ & Hlen).
    rewrite (Extends_newEvents Hext). lia.
  - apply mapiM_chunks in Hmap as [Hlen Hext].
    rewrite Hlen in H.
    destruct (1 <? length chunks); [|discriminate].
    apply bind_Throw in H as [H|(final & st2 & _ & H)]; [|discriminate].
    apply genText_Throw in H.
    rewrite (Extends_newEvents (Extends_trans Hext H)).
    rewrite length_app, chunkEvents_length by exact Hlen. simpl. lia.
Qed.

Lemma summarizeContent_throws_model_failure_witness :
  exists e st',
    summarizeContent textThrowsServices (lit "ab") [] [] (sampleTask web)
      initState = (Throw e, st') /\
    (exists prompt,
       In (EvGenerateText fastModel None prompt (Throw e))
          (newEvents initState st')) /\
    length (newEvents initState st') <= summarizerCalls (lit "ab") /\
    forallb isFastText (newEvents initState st') = true.
Proof.
  evaluate_run
    (summarizeContent textThrowsServices (lit "ab") [] [] (sampleTask web)
       initState) Hrun.
  match type of Hrun with
  | _ = (Throw ?e, ?st') => exists e, st'
  end.
  split; [exact Hrun|].
  exact (summarizeContent_throws_model_failure _ _ _ _ _ _ Hrun).
Defined.

Lemma fetchWebContent_turn {W} (sv : Services W) (url : jsstring)
    (st : State W) :
  let (r, w') := fetch sv (parserUrl url) (world st) in
  fetchWebContent sv url st =
  (match r with
   | Throw e => Throw e
   | Ok res =>
       if (status res =? 200)%Z then
         match json res with
         | Throw e => Throw e
         | Ok _ => Ok (validPage res)
         end
       else Ok None
   end,
   {| world := w';
      trace := trace st ++ [EvFetch (parserUrl url) r] |}).
Proof.
  unfold fetchWebContent, bind at 1, call.
  destruct (fetch sv (parserUrl url) (world st)) as [[res|e] w'];
    [|reflexivity].
  unfold validPage.
  destruct (status res =? 200)%Z; cbn [negb]; [|reflexivity].
  unfold bind, liftOutcome.
  destruct (json res) as [[title [content|] url'|results]|e];
    try reflexivity.
  replace (100 <=? length content)
    with (negb ((length content =? 0) || (length content <? 100))).
  - destruct ((length content =? 0) || (length content <? 100));
      reflexivity.
  - destruct (Nat.eqb_spec (length content) 0),
             (Nat.ltb_spec (length content) 100),
             (Nat.leb_spec 100 (length content));
      simpl; try reflexivity; lia.
Qed.


(** ** The search phase, whatever its outcome *)

Lemma searchLoop_turn {W} (sv : Services W) query remaining page acc
    (st : State W) :
  searchLoop sv query (S remaining) page acc st =
  let (r, w') := fetch sv (searchUrl query page) (world st) in
  let st1 := {| world := w';
                trace := trace st ++ [EvFetch (searchUrl query page) r] |} in
  match r with
  | Throw e => (Throw e, st1)
  | Ok res =>
      match json res with
      | Throw e => (Throw e, st1)
      | Ok data =>
          match prop_results data with
          | Some (h :: hits) =>
              searchLoop sv query remaining (S page) (acc ++ h :: hits) st1
          | _ => (Ok acc, st1)
          end
      end
  end.
Proof.
  cbn [searchLoop]. unfold bind at 1, call at 1.
  destruct (fetch sv (searchUrl query page) (world st)) as [[res|e] w'];
    [|reflexivity].
  unfold bind at 1, liftOutcome at 1.
  destruct (json res) as [data|e]; [|reflexivity].
  destruct (prop_results data) as [[|h hits]|]; try reflexivity.
  now rewrite copy_results.
Qed.

(** X8.  Whether it resolves or throws, the search loop makes at most
    [remaining] requests ([MAX_PAGES] in the web runner) and nothing
    else, for consecutive pages from [page] on.  For response bodies of
    the declared shapes, when it throws [e], the last request is the one
    that failed: [fetch] threw [e], or the body of the response did not
    parse and parsing threw [e]. *)
Theorem searchLoop_requests {W} (sv : Services W) (query : jsstring)
    (remaining : nat) :
  forall page acc (st : State W),
  exists results,
    newEvents st (snd (searchLoop sv query remaining page acc st))
    = searchRequests query page results /\
    length results <= remaining /\
    match fst (searchLoop sv query remaining page acc st) with
    | Ok _ => True
    | Throw e =>
        exists done last,
          results = done ++ [last] /\
          match last with
          | Throw e' => e' = e
          | Ok res => json res = Throw e
          end
    end.
Proof.
  induction remaining as [|remaining IH]; intros page acc st.
  - exists []. unfold searchLoop, ret; cbn [fst snd].
    rewrite (Extends_newEvents (Extends_refl st)).
    split; [reflexivity|]. split; [simpl; lia|exact I].
  - rewrite searchLoop_turn.
    destruct (fetch sv (searchUrl query page) (world st)) as [r w'].
    cbv zeta. set (st1 := {| world := w'; trace := _ |}).
    assert (Hext1 : Extends st st1 [EvFetch (searchUrl query page) r])
      by apply Extends_call.
    assert (Hstop : forall o : Outcome (list SearchResult),
               match o with
               | Ok _ => True
               | Throw e =>
                   match r with
                   | Throw e' => e' = e
                   | Ok res => json res = Throw e
                   end
               end ->
               exists results,
                 newEvents st (snd (o, st1))
                 = searchRequests query page results /\
                 length results <= S remaining /\
                 match fst (o, st1) with
                 | Ok _ => True
                 | Throw e =>
                     exists done last,
                       results = done ++ [last] /\
                       match last with
                       | Throw e' => e' = e
                       | Ok res => json res = Throw e
                       end
                 end).
    { intros o Ho. exists [r]. cbn [fst snd].
      rewrite (Extends_newEvents Hext1).
      split; [reflexivity|]. split; [simpl; lia|].
      destruct o as [all|e]; [exact I|].
      exists [], r. split; [reflexivity|exact Ho]. }
    destruct r as [res|e]; [|apply Hstop; reflexivity].
    destruct (json res) as [data|e]; [|apply Hstop; reflexivity].
    destruct (prop_results data) as [[|h hits]|];
      try (apply Hstop; exact I).
    destruct (IH (S page) (acc ++ h :: hits) st1)
      as (results & Hev & Hlen & Hlast).
    set (run := searchLoop sv query remaining (S page) (acc ++ h :: hits) st1)
      in *.
    exists (Ok res :: results).
    split; [|split; [simpl; lia|]].
    + pose proof (Emits_searchLoop sv query remaining (S page)
                    (acc ++ h :: hits) st1) as (evs & Hext & _).
      fold run in Hext.
      rewrite (Extends_newEvents Hext) in Hev. subst evs.
      exact (Extends_newEvents (Extends_trans Hext1 Hext)).
    + destruct (fst run); [exact I|].
      destruct Hlast as (done & last & -> & Hlast).
      exists (Ok res :: done), last. split; [reflexivity|exact Hlast].
Qed.

(** ** The calls of a web task and of the whole pipeline *)

Lemma summarizeAll_events {W} (sv : Services W) research pages :
  forall (st : State W) summaries st',
    RunAll (summarizePage sv research) st pages summaries st' ->
    exists evs,
      Extends st st' evs /\
      forallb isFastText evs = true /\
      length evs =
      list_sum (map (fun page => summarizerCalls (wc_content page)) pages).
Proof.
  induction pages as [|page pages IH]; intros st summaries st' H;
    inversion H as [|? ? s st1 ? ss ? Hs Hss]; subst.
  - exists []; split; [apply Extends_refl|split; reflexivity].
  - apply IH in Hss as (evs2 & Hext2 & Hfast2 & Hlen2).
    apply (summarizeContent_events sv (wc_content page) (wc_title page)
             (wc_url page) research) in Hs.
    destruct Hs as (evs1 & Hext1 & Hlen1 & Hfast1).
    exists (evs1 ++ evs2). split; [exact (Extends_trans Hext1 Hext2)|].
    split; [now rewrite forallb_app, Hfast1, Hfast2|].
    rewrite length_app, Hlen1, Hlen2. reflexivity.
Qed.

Lemma filterNonNull_length {A} (xs : list (option A)) :
  length (filterNonNull xs) <= length xs.
Proof. induction xs as [|[x|] xs IH]; simpl; lia. Qed.

(** X9.  The calls of a web task that resolves, in order: the search
    requests; one URL selection by the flagship model, on all the hits
    found; one page fetch per selected URL, in selection order (a URL
    selected twice is fetched twice); the calls of the summarizer for the
    valid pages, [summarizerCalls] for each; and last the answer call,
    whose text is the answer.  There are as many summaries in the answer
    prompt as references, and no more references than selected URLs. *)
Theorem processWebResearch_calls_in_order {W} (sv : Services W)
    research (st : State W) res st' :
  processWebResearch sv research st = (Ok res, st') ->
  exists searchResps urls pageResps summaryEvents summaries,
    newEvents st st' =
      searchEvents (rp_query research) 1 searchResps
      ++ [EvGenerateUrls flagshipModel
            (urlsPrompt sv (concat (map hitsOf searchResps)) research)
            (Ok urls)]
      ++ pageEvents urls pageResps
      ++ summaryEvents
      ++ [EvGenerateText fastModel None (answerPrompt research summaries)
            (Ok (answer res))] /\
    length pageResps = length urls /\
    forallb isFastText summaryEvents = true /\
    length summaryEvents =
      list_sum (map (fun page => summarizerCalls (wc_content page))
                    (filterNonNull (map validPage pageResps))) /\
    length summaries = length (references res) /\
    length (references res) <= length urls.
Proof.
  intros H.
  apply processWebResearch_phases in H
    as (hits & st1 & urls & st2 & contents & st3 & summaries & st4
        & Hsearch & Hurls & Hfetch & Hsum & Htext & Hrefs).
  apply searchLoop_run in Hsearch as (searchResps & Hext1 & _ & Hhits & _).
  simpl in Hhits; subst hits.
  unfold getRelevantUrls in Hurls.
  apply call_Ok in Hurls as (w2 & _ & ->).
  apply fetchAll_run in Hfetch as (pageResps & Hlen & Hext3 & ->).
  pose proof (RunAll_length Hsum) as Hcount.
  apply summarizeAll_events in Hsum as (evs4 & Hext4 & Hfast4 & Hlen4).
  apply genText_Ok in Htext.
  exists searchResps, urls, pageResps, evs4, summaries.
  split; [|split; [exact Hlen|split; [exact Hfast4|split; [exact Hlen4|]]]].
  - pose proof (Extends_trans Hext1 (Extends_trans (Extends_call st1 w2 _)
                                       Hext3)) as E13.
    pose proof (Extends_trans E13 (Extends_trans Hext4 Htext)) as E.
    rewrite (Extends_newEvents E). now rewrite <- !app_assoc.
  - rewrite Hrefs, length_map. split; [exact Hcount|].
    rewrite <- Hlen, <- (length_map validPage pageResps).
    apply filterNonNull_length.
Qed.

Lemma processWebResearch_calls_in_order_witness :
  exists res st',
    processWebResearch oneDownServices (sampleTask web) initState
    = (Ok res, st') /\
    exists searchResps urls pageResps summaryEvents summaries,
      newEvents initState st' =
        searchEvents (rp_query (sampleTask web)) 1 searchResps
        ++ [EvGenerateUrls flagshipModel
              (urlsPrompt oneDownServices
                 (concat (map hitsOf searchResps)) (sampleTask web))
              (Ok urls)]
        ++ pageEvents urls pageResps
        ++ summaryEvents
        ++ [EvGenerateText fastModel None
              (answerPrompt (sampleTask web) summaries) (Ok (answer res))] /\
      length pageResps = length urls /\
      forallb isFastText summaryEvents = true /\
      length summaryEvents =
        list_sum (map (fun page => summarizerCalls (wc_content page))
                      (filterNonNull (map validPage pageResps))) /\
      length summaries = length (references res) /\
      length (references res) <= length urls.
Proof.
  evaluate_run
    (processWebResearch oneDownServices (sampleTask web) initState) Hrun.
  match type of Hrun with
  | _ = (Ok ?res, ?st') => exists res, st'
  end.
  split; [exact Hrun|].
  exact (processWebResearch_calls_in_order _ _ _ Hrun).
Defined.




(** ** The report prompt *)





(** ** Where exceptions come from *)

Section Exceptions.

Context {W : Type}.

Lemma Traced_ret {A} (a : A) : Traced (@ret W A a).
Proof.
  intros st. exists []; split; [apply Extends_refl|].
  intros e H; discriminate H.
Qed.

Lemma Traced_call {A} (op : W -> Outcome A * W) ev :
  (forall e, failureOf (ev (Throw e)) = Some e) -> Traced (call op ev).
Proof.
  intros Hev st. unfold call. destruct (op (world st)) as [r w'].
  exists [ev r]; split; [apply Extends_call|].
  cbn [fst]. intros e ->. exists (ev (Throw e)). split; [now left|apply Hev].
Qed.

Lemma Traced_bind {A B} (m : M W A) (k : A -> M W B) :
  Traced m -> (forall a, Traced (k a)) -> Traced (bind m k).
Proof.
  intros Hm Hk st. destruct (Hm st) as (e1 & Hext1 & Hfail1).
  unfold bind. destruct (m st) as [[a|e] st1]; cbn [fst snd] in *.
  - destruct (Hk a st1) as (e2 & Hext2 & Hfail2).
    exists (e1 ++ e2); split; [exact (Extends_trans Hext1 Hext2)|].
    intros e He. destruct (Hfail2 e He) as (ev & Hin & Hev).
    exists ev; split; [apply in_or_app; now right|exact Hev].
  - exists e1; split; [exact Hext1|].
    intros e0 He0. apply Hfail1. inversion He0; reflexivity.
Qed.

Lemma Traced_mapM {A B} (f : A -> M W B) xs :
  (forall x, Traced (f x)) -> Traced (mapM f xs).
Proof.
  intros Hf. induction xs as [|x xs IH]; simpl; [apply Traced_ret|].
  apply Traced_bind; [apply Hf|]. intros y.
  apply Traced_bind; [exact IH|]. intros ys. apply Traced_ret.
Qed.

Lemma Traced_mapiM_from {A B} (f : A -> nat -> M W B) xs :
  (forall x i, Traced (f x i)) -> forall i, Traced (mapiM_from i f xs).
Proof.
  intros Hf. induction xs as [|x xs IH]; intros i; simpl; [apply Traced_ret|].
  apply Traced_bind; [apply Hf|]. intros y.
  apply Traced_bind; [apply IH|]. intros ys. apply Traced_ret.
Qed.

Variable sv : Services W.

Lemma Traced_genText model prompt : Traced (genText sv model prompt).
Proof. apply Traced_call. reflexivity. Qed.

Lemma Traced_summarizeContent content title url research :
  Traced (summarizeContent sv content title url research).
Proof.
  unfold summarizeContent. apply Traced_bind.
  - apply Traced_mapiM_from. intros chunk i. apply Traced_genText.
  - intros texts. destruct (1 <? length texts); [|apply Traced_ret].
    apply Traced_bind; [apply Traced_genText|].
    intros final. apply Traced_ret.
Qed.

Lemma Traced_fetchWebContent url : Traced (fetchWebContent sv url).
Proof.
  intros st. pose proof (fetchWebContent_turn sv url st) as H.
  destruct (fetch sv (parserUrl url) (world st)) as [r w'].
  rewrite H. cbn [fst snd].
  exists [EvFetch (parserUrl url) r]; split; [apply Extends_call|].
  intros e He. exists (EvFetch (parserUrl url) r). split; [now left|].
  destruct r as [res|e']; [|now inversion He].
  destruct (status res =? 200)%Z; [|discriminate He].
  simpl. destruct (json res) as [data|e']; [discriminate He|].
  now inversion He.
Qed.

Lemma Traced_searchLoop query remaining :
  forall page acc, Traced (searchLoop sv query remaining page acc).
Proof.
  induction remaining as [|remaining IH]; intros page acc st.
  - exact (Traced_ret acc st).
  - rewrite searchLoop_turn.
    destruct (fetch sv (searchUrl query page) (world st)) as [r w'].
    cbv zeta. set (st1 := {| world := w'; trace := _ |}).
    assert (Hext1 : Extends st st1 [EvFetch (searchUrl query page) r])
      by apply Extends_call.
    destruct r as [res|e'].
    + destruct (json res) as [data|e'] eqn:Ejson.
      * destruct (prop_results data) as [[|h hits]|];
          try (exists [EvFetch (searchUrl query page) (Ok res)];
               split; [exact Hext1|intros e He; discriminate He]).
        destruct (IH (S page) (acc ++ h :: hits) st1)
          as (evs & Hext2 & Hfail).
        exists (EvFetch (searchUrl query page) (Ok res) :: evs).
        split; [exact (Extends_trans Hext1 Hext2)|].
        intros e He. destruct (Hfail e He) as (ev & Hin & Hev).
        exists ev; split; [now right|exact Hev].
      * exists [EvFetch (searchUrl query page) (Ok res)].
        split; [exact Hext1|]. intros e He. inversion He; subst e'.
        eexists; split; [now left|]. simpl. now rewrite Ejson.
    + exists [EvFetch (searchUrl query page) (Throw e')].
      split; [exact Hext1|]. intros e He. inversion He; subst e'.
      eexists; split; [now left|reflexivity].
Qed.

Lemma Traced_dispatch research : Traced (dispatch sv research).
Proof.
  unfold dispatch. destruct (rp_type research).
  - unfold processWebResearch.
    apply Traced_bind; [apply Traced_searchLoop|]. intros hits.
    apply Traced_bind; [now apply Traced_call|]. intros urls.
    apply Traced_bind; [apply Traced_mapM, Traced_fetchWebContent|].
    intros contents.
    apply Traced_bind.
    { apply Traced_mapM. intros page. apply Traced_summarizeContent. }
    intros summaries.
    apply Traced_bind; [apply Traced_genText|].
    intros text; apply Traced_ret.
  - unfold processAiResearch.
    apply Traced_bind; [apply Traced_genText|].
    intros text; apply Traced_ret.
Qed.

Lemma Traced_deepResearch systemPrompt prompt :
  Traced (deepResearch sv systemPrompt prompt).
Proof.
  unfold deepResearch.
  apply Traced_bind; [now apply Traced_call|]. intros plan.
  apply Traced_bind; [apply Traced_mapM, Traced_dispatch|].
  intros summaries.
  apply Traced_bind; [apply Traced_genText|].
  intros report; apply Traced_ret.
Qed.

Lemma Traced_Throw {A} (m : M W A) (st : State W) e st' :
  Traced m -> m st = (Throw e, st') ->
  exists ev, In ev (newEvents st st') /\ failureOf ev = Some e.
Proof.
  intros Hm Hrun. destruct (Hm st) as (evs & Hext & Hfail).
  rewrite Hrun in Hext, Hfail. cbn [fst snd] in *.
  rewrite (Extends_newEvents Hext). apply Hfail. reflexivity.
Qed.

End Exceptions.

(** X12.  The pipeline has no failure of its own (for response bodies of
    the declared shapes): whenever a research task or the whole pipeline
    throws [e], one of the external calls it made ended with [e] -
    [fetch] or a model call threw it, or parsing the body of a response
    did. *)
Theorem exceptions_come_from_calls {W} (sv : Services W)
    (systemPrompt : jsstring) :
  (forall research (st : State W) e st',
     dispatch sv research st = (Throw e, st') ->
     exists ev, In ev (newEvents st st') /\ failureOf ev = Some e) /\
  (forall prompt (st : State W) e st',
     deepResearch sv systemPrompt prompt st = (Throw e, st') ->
     exists ev, In ev (newEvents st st') /\ failureOf ev = Some e).
Proof.
  split.
  - intros research st e st'. apply Traced_Throw, Traced_dispatch.
  - intros prompt st e st'. apply Traced_Throw, Traced_deepResearch.
Qed.

Lemma exceptions_come_from_calls_witness :
  exists e st',
    deepResearch badJsonServices [] (lit "printing press") initState
    = (Throw e, st') /\
    exists ev, In ev (newEvents initState st') /\ failureOf ev = Some e.
Proof.
  evaluate_run
    (deepResearch badJsonServices [] (lit "printing press") initState) Hrun.
  match type of Hrun with
  | _ = (Throw ?e, ?st') => exists e, st'
  end.
  split; [exact Hrun|].
  exact (proj2 (exceptions_come_from_calls badJsonServices []) _ _ _ _ Hrun).
Defined.
